(** * NexaAgent chat backend: a shallow embedding of [backend.py]

    The development follows the layout of the source file: the Python
    runtime notions the code relies on (exceptions, [try]/[except],
    truthiness of strings), the calculator tool, the chat event stream,
    the thread deletion helper over the SQLite connection, and the
    history endpoint.  *)

From Stdlib Require Import ZArith NArith QArith Lia Floats Ascii.
From stdpp Require Import base option list strings gmap sorting.

(** ** Python runtime *)

(** The exception classes the source distinguishes.  [except Exception]
    catches all of them; [except sqlite3.OperationalError] only the first. *)
Inductive ExnClass :=
  | OperationalError
  | ZeroDivisionError
  | OtherException (cls : string).

Record PyExn := mkExn { exn_class : ExnClass; exn_msg : string }.

(** [str(e)] *)
Definition py_str_exn (e : PyExn) : string := exn_msg e.

(** Outcome of evaluating a Python expression or block: a value, or a raised
    exception. *)
Inductive Exc (A : Type) :=
  | Return (a : A)
  | Raise (e : PyExn).
Arguments Return {A} a.
Arguments Raise {A} e.

Definition exc_bind {A B} (c : Exc A) (k : A → Exc B) : Exc B :=
  match c with
  | Return a => k a
  | Raise e => Raise e
  end.

Notation "x ← c ;;; k" := (exc_bind c (λ x, k))
  (at level 20, c at level 100, k at level 200, right associativity, only parsing).

(** [try: body  except Exception as e: handler(e)] *)
Definition try_except {A} (body : Exc A) (handler : PyExn → Exc A) : Exc A :=
  match body with
  | Return a => Return a
  | Raise e => handler e
  end.

(** Truthiness of a [str]: the empty string is falsy. *)
Definition py_truthy (s : string) : bool :=
  match s with
  | EmptyString => false
  | String _ _ => true
  end.

(** [needle in hay] on strings. *)
Fixpoint py_str_in (needle hay : string) : bool :=
  String.prefix needle hay ||
  match hay with
  | EmptyString => false
  | String _ hay' => py_str_in needle hay'
  end.

(** ** The calculator tool *)

(** Python resolves [+], [-], [*], [/] and [== 0] on the run-time type of the
    operands, and each of them may raise. *)
Class PyNumber (num : Type) := {
  py_add : num → num → Exc num;
  py_sub : num → num → Exc num;
  py_mul : num → num → Exc num;
  py_truediv : num → num → Exc num;
  py_eq_zero : num → Exc bool;
}.

(** Values stored in the dict the tool returns. *)
Inductive PyVal (num : Type) :=
  | PyNum (r : num)
  | PyStr (s : string).
Arguments PyNum {num} r.
Arguments PyStr {num} s.

Section calculator.
Context {num : Type} `{PyNumber num}.

(** The body of the [try] block of [calculator]. *)
Definition calculator_try (first_num second_num : num) (operation : string)
  : Exc (gmap string (PyVal num)) :=
  if String.eqb operation "add" then
    result ← py_add first_num second_num ;;;
    Return {[ "result" := PyNum result ]}
  else if String.eqb operation "sub" then
    result ← py_sub first_num second_num ;;;
    Return {[ "result" := PyNum result ]}
  else if String.eqb operation "mul" then
    result ← py_mul first_num second_num ;;;
    Return {[ "result" := PyNum result ]}
  else if String.eqb operation "div" then
    z ← py_eq_zero second_num ;;;
    if (z : bool) then Return {[ "error" := PyStr "Division by zero" ]}
    else
      result ← py_truediv first_num second_num ;;;
      Return {[ "result" := PyNum result ]}
  else
    Return {[ "error" := PyStr ("Unsupported operation '" +:+ operation +:+ "'") ]}.

Definition calculator (first_num second_num : num) (operation : string)
  : Exc (gmap string (PyVal num)) :=
  try_except (calculator_try first_num second_num operation)
    (λ e, Return {[ "error" := PyStr (py_str_exn e) ]}).
End calculator.

(** The tool is declared on [float]: IEEE 754 binary64.  Addition, subtraction
    and multiplication of floats never raise (they overflow to an infinity);
    true division raises [ZeroDivisionError] on a zero divisor, of either
    sign. *)
#[export] Instance float_number : PyNumber float := {|
  py_add a b := Return (a + b)%float;
  py_sub a b := Return (a - b)%float;
  py_mul a b := Return (a * b)%float;
  py_truediv a b :=
    if (b =? 0)%float
    then Raise (mkExn ZeroDivisionError "float division by zero")
    else Return (a / b)%float;
  py_eq_zero a := Return (a =? 0)%float;
|}.

(** The same operators on [str] operands, which reach the function when it is
    called without the tool's argument validation: [+] concatenates, the
    others raise [TypeError]. *)
Definition str_operands : PyNumber string := {|
  py_add a b := Return (a +:+ b);
  py_sub a b :=
    Raise (mkExn (OtherException "TypeError")
                 "unsupported operand type(s) for -: 'str' and 'str'");
  py_mul a b :=
    Raise (mkExn (OtherException "TypeError")
                 "can't multiply sequence by non-int of type 'str'");
  py_truediv a b :=
    Raise (mkExn (OtherException "TypeError")
                 "unsupported operand type(s) for /: 'str' and 'str'");
  py_eq_zero a := Return false;
|}.

(** The operator Python applies for each supported operation name. *)
Definition float_op (operation : string) : option (float → float → float) :=
  if String.eqb operation "add" then Some PrimFloat.add
  else if String.eqb operation "sub" then Some PrimFloat.sub
  else if String.eqb operation "mul" then Some PrimFloat.mul
  else if String.eqb operation "div" then Some PrimFloat.div
  else None.

(** What IEEE 754 prescribes for each operation on binary64 values: the exact
    result rounded to nearest, ties to even, with overflow to an infinity. *)
Definition ieee_result (operation : string) (x y : spec_float) : option spec_float :=
  if String.eqb operation "add" then Some (SF64add x y)
  else if String.eqb operation "sub" then Some (SF64sub x y)
  else if String.eqb operation "mul" then Some (SF64mul x y)
  else if String.eqb operation "div" then Some (SF64div x y)
  else None.

(** The exact rational a float denotes; [None] for infinities and NaN. *)
Definition exact_value (x : float) : option Q :=
  match Prim2SF x with
  | S754_zero _ => Some 0%Q
  | S754_finite s m e =>
      let n := if s then Z.neg m else Z.pos m in
      Some (if (0 <=? e)%Z then inject_Z (n * 2 ^ e) else (n # Pos.pow 2 (Z.to_pos (- e))))
  | _ => None
  end.

(** The operation on rationals each name stands for. *)
Definition exact_op (operation : string) : option (Q → Q → Q) :=
  if String.eqb operation "add" then Some Qplus
  else if String.eqb operation "sub" then Some Qminus
  else if String.eqb operation "mul" then Some Qmult
  else if String.eqb operation "div" then Some Qdiv
  else None.

(** [r] is the exact result of [operation] on [a] and [b]. *)
Definition exactly_correct (operation : string) (a b r : float) : bool :=
  match exact_op operation, exact_value a, exact_value b, exact_value r with
  | Some f, Some x, Some y, Some z => Qeq_bool z (f x y)
  | _, _, _, _ => false
  end.

Definition two53 : float := 9007199254740992%float.

(** The floats that the literals [0.1], [0.2] and [0.30000000000000004]
    denote. *)
Definition tenth : float := 0x1.999999999999ap-4%float.
Definition fifth : float := 0x1.999999999999ap-3%float.
Definition three_tenths_and_a_bit : float := 0x1.3333333333334p-2%float.

(** ** Messages *)

Record ToolCall := mkToolCall {
  tool_name : string;
  tool_args : string;
  tool_call_ident : string;
}.

(** The message classes of the conversation state.  [AIMessageChunk] is the
    subclass of [AIMessage] that the token stream yields. *)
Inductive BaseMessage :=
  | HumanMessage (content : string)
  | AIMessage (content : string) (tool_calls : list ToolCall)
  | AIMessageChunk (content : string) (tool_calls : list ToolCall)
  | ToolMessage (content : string) (tool_call_id : string)
  | SystemMessage (content : string).

(** [msg.content] *)
Definition content (msg : BaseMessage) : string :=
  match msg with
  | HumanMessage c | AIMessage c _ | AIMessageChunk c _
  | ToolMessage c _ | SystemMessage c => c
  end.

(** [isinstance(msg, HumanMessage)] *)
Definition isinstance_HumanMessage (msg : BaseMessage) : bool :=
  match msg with
  | HumanMessage _ => true
  | _ => false
  end.

(** [isinstance(msg, AIMessage)]: holds of the subclass too. *)
Definition isinstance_AIMessage (msg : BaseMessage) : bool :=
  match msg with
  | AIMessage _ _ | AIMessageChunk _ _ => true
  | _ => false
  end.

(** [isinstance(msg, ToolMessage)] *)
Definition isinstance_ToolMessage (msg : BaseMessage) : bool :=
  match msg with
  | ToolMessage _ _ => true
  | _ => false
  end.

(** ** Thread identifiers: [str(uuid.uuid4())] *)

(** [uuid.uuid4()] on 16 random bytes read as a big-endian integer: the
    variant bits are forced to RFC 4122 and the version nibble to 4. *)
Definition uuid4 (rand : N) : N :=
  let int := N.land rand (N.ones 128) in
  let int := N.ldiff int (N.shiftl 0xc000 48) in
  let int := N.lor int (N.shiftl 0x8000 48) in
  let int := N.ldiff int (N.shiftl 0xf000 64) in
  N.lor int (N.shiftl 4 76).

Definition hex_digit (d : N) : ascii :=
  match d with
  | 0 => "0" | 1 => "1" | 2 => "2" | 3 => "3" | 4 => "4" | 5 => "5"
  | 6 => "6" | 7 => "7" | 8 => "8" | 9 => "9" | 10 => "a" | 11 => "b"
  | 12 => "c" | 13 => "d" | 14 => "e" | _ => "f"
  end%N%char.

(** The [k] hexadecimal digits of [n] that end at nibble [lo], most
    significant first. *)
Fixpoint hex_digits (k : nat) (lo : N) (n : N) : string :=
  match k with
  | O => ""
  | S k' =>
      String (hex_digit (N.land (N.shiftr n (4 * (lo + N.of_nat k'))) 0xf))
             (hex_digits k' lo n)
  end.

(** [str(u)]: the 32 digits of ['%032x' % u.int], grouped 8-4-4-4-12. *)
Definition uuid_str (int : N) : string :=
  hex_digits 8 24 int +:+ "-" +:+ hex_digits 4 20 int +:+ "-" +:+
  hex_digits 4 16 int +:+ "-" +:+ hex_digits 4 12 int +:+ "-" +:+
  hex_digits 12 0 int.

(** ** The chat endpoint and its event stream *)

Record ChatRequest := mkChatRequest {
  message : string;
  thread_id : option string;
}.

(** What iterating [chatbot.stream(..., stream_mode="messages")] does, step by
    step: it yields a message chunk (the metadata of the pair is not used),
    ends, or raises. *)
Inductive StreamRun :=
  | StreamEnd
  | StreamYield (message_chunk : BaseMessage) (rest : StreamRun)
  | StreamRaise (e : PyExn).

(** The message chunks a run yields, in order. *)
Fixpoint stream_items (run : StreamRun) : list BaseMessage :=
  match run with
  | StreamYield m rest => m :: stream_items rest
  | _ => []
  end.

(** Whether the iteration ends without raising. *)
Fixpoint stream_ends (run : StreamRun) : bool :=
  match run with
  | StreamEnd => true
  | StreamYield _ rest => stream_ends rest
  | StreamRaise _ => false
  end.

(** The exception the iteration raises, if it raises. *)
Fixpoint stream_error (run : StreamRun) : option PyExn :=
  match run with
  | StreamEnd => None
  | StreamYield _ rest => stream_error rest
  | StreamRaise e => Some e
  end.

(** The dict behind one [data: <json>] line of the response. *)
Definition event (type content thread_id : string) : gmap string string :=
  {[ "type" := type; "content" := content; "thread_id" := thread_id ]}.

(** The [for] loop of [generate_response]: the events yielded so far, and how
    the loop leaves: with [full_response], or with the exception the stream
    raised. *)
Fixpoint stream_loop (thread_id : string) (run : StreamRun) (full_response : string)
  : list (gmap string string) * Exc string :=
  match run with
  | StreamEnd => ([], Return full_response)
  | StreamRaise e => ([], Raise e)
  | StreamYield message_chunk rest =>
      if isinstance_AIMessage message_chunk && py_truthy (content message_chunk) then
        let chunk_data := event "chunk" (content message_chunk) thread_id in
        let '(later, out) :=
          stream_loop thread_id rest (full_response +:+ content message_chunk) in
        (chunk_data :: later, out)
      else stream_loop thread_id rest full_response
  end.

(** Everything the generator yields, in order. *)
Definition generate_response (thread_id : string) (run : StreamRun)
  : list (gmap string string) :=
  let '(chunks, out) := stream_loop thread_id run "" in
  match out with
  | Return full_response => chunks ++ [event "complete" full_response thread_id]
  | Raise e => chunks ++ [event "error" (py_str_exn e) thread_id]
  end.

Record ChatTurn := mkChatTurn {
  turn_thread_id : string;
  turn_events : list (gmap string string);
}.

Section chat_endpoint.
(** The compiled graph: the run it produces for a thread id and a user
    message. *)
Variable chatbot_stream : string → string → StreamRun.

(** [rand] is the entropy [uuid.uuid4()] draws when it is called. *)
Definition chat_endpoint (rand : N) (request : ChatRequest) : ChatTurn :=
  let thread_id :=
    match thread_id request with
    | Some t => if py_truthy t then t else uuid_str (uuid4 rand)
    | None => uuid_str (uuid4 rand)
    end in
  mkChatTurn thread_id
    (generate_response thread_id (chatbot_stream thread_id (message request))).
End chat_endpoint.

(** Readers of an event list. *)
Definition is_chunk (ev : gmap string string) : bool :=
  bool_decide (ev !! "type" = Some "chunk").

Definition is_terminal (ev : gmap string string) : bool :=
  bool_decide (ev !! "type" = Some "complete") ||
  bool_decide (ev !! "type" = Some "error").

Definition chunk_text (evs : list (gmap string string)) : string :=
  foldr (λ ev acc, default "" (ev !! "content") +:+ acc) ""
        (filter (λ ev, is_chunk ev = true) evs).

(** ** The SQLite connection behind the checkpointer *)

Record Row := mkRow {
  row_thread_id : string;
  row_payload : string;
}.

(** [conn]: the tables of the database file as of the last commit, and the
    tables as the connection sees them inside its open transaction.  A name
    the map does not hold is a table that was never created. *)
Record Conn := mkConn {
  committed : gmap string (list Row);
  working : gmap string (list Row);
}.

(** Faults of the storage layer that do not depend on the tables (a closed
    connection, a locked database, a failing disk): for opening the cursor,
    per statement target, and for the commit. *)
Record Faults := mkFaults {
  cursor_fault : option PyExn;
  execute_fault : string → option PyExn;
  commit_fault : option PyExn;
}.

Definition no_faults : Faults := mkFaults None (λ _, None) None.

Definition keep_other_threads (t_id_str : string) (rows : list Row) : list Row :=
  filter (λ r, row_thread_id r ≠ t_id_str) rows.

(** [cursor.execute(f"DELETE FROM {table} WHERE thread_id = ?", (t_id_str,))] *)
Definition execute_delete (F : Faults) (table t_id_str : string) (c : Conn)
  : Exc unit * Conn :=
  match execute_fault F table with
  | Some e => (Raise e, c)
  | None =>
      match working c !! table with
      | None => (Raise (mkExn OperationalError ("no such table: " +:+ table)), c)
      | Some rows =>
          (Return (),
           mkConn (committed c)
                  (<[table := keep_other_threads t_id_str rows]> (working c)))
      end
  end.

(** [conn.commit()] *)
Definition commit (F : Faults) (c : Conn) : Exc unit * Conn :=
  match commit_fault F with
  | Some e => (Raise e, c)
  | None => (Return (), mkConn (working c) (working c))
  end.

(** The process state [delete_thread] acts on: the connection and what was
    printed. *)
Record World := mkWorld {
  conn : Conn;
  stdout : list string;
}.

Definition tables : list string :=
  ["checkpoints"; "checkpoint_writes"; "checkpoint_blobs"].

(** Whether the inner handler of [delete_thread] lets the loop go on. *)
Definition is_missing_table (e : PyExn) : bool :=
  match exn_class e with
  | OperationalError => py_str_in "no such table" (py_str_exn e)
  | _ => false
  end.

(** The [for table in tables] loop with its inner [try]/[except]. *)
Fixpoint delete_from (F : Faults) (t_id_str : string) (tbls : list string) (c : Conn)
  : Exc unit * Conn :=
  match tbls with
  | [] => (Return (), c)
  | table :: rest =>
      match execute_delete F table t_id_str c with
      | (Return _, c') => delete_from F t_id_str rest c'
      | (Raise e, c') =>
          if is_missing_table e then delete_from F t_id_str rest c'
          else (Raise e, c')
      end
  end.

(** The body of the outer [try] block. *)
Definition delete_thread_try (F : Faults) (thread_id : string) (w : World)
  : Exc bool * World :=
  let t_id_str := thread_id in
  match cursor_fault F with
  | Some e => (Raise e, w)
  | None =>
      match delete_from F t_id_str tables (conn w) with
      | (Raise e, c) => (Raise e, mkWorld c (stdout w))
      | (Return _, c) =>
          match commit F c with
          | (Raise e, c') => (Raise e, mkWorld c' (stdout w))
          | (Return _, c') =>
              (Return true,
               mkWorld c' (stdout w ++ ["Successfully deleted thread: " +:+ t_id_str]))
          end
      end
  end.

Definition delete_thread (F : Faults) (thread_id : string) (w : World)
  : Exc bool * World :=
  match delete_thread_try F thread_id w with
  | (Return b, w') => (Return b, w')
  | (Raise e, w') =>
      (Return false,
       mkWorld (conn w') (stdout w' ++ ["Error deleting thread: " +:+ py_str_exn e]))
  end.

(** [delete_thread_endpoint]: the response body. *)
Definition delete_thread_endpoint (F : Faults) (thread_id : string) (w : World)
  : Exc (gmap string bool) * World :=
  match delete_thread F thread_id w with
  | (Return success, w') => (Return {[ "success" := success ]}, w')
  | (Raise e, w') => (Raise e, w')
  end.

(** No table holds a row of [thread_id]. *)
Definition no_rows_of (thread_id : string) (db : gmap string (list Row)) : Prop :=
  map_Forall (λ _ rows, Forall (λ r, row_thread_id r ≠ thread_id) rows) db.

(** The first fault the deletion meets that its inner handler does not take
    for a missing table: the cursor comes first, the commit last. *)
Fixpoint first_fault_in (F : Faults) (tbls : list string) : option PyExn :=
  match tbls with
  | [] => None
  | table :: rest =>
      match execute_fault F table with
      | Some e => if is_missing_table e then first_fault_in F rest else Some e
      | None => first_fault_in F rest
      end
  end.

Definition first_fault (F : Faults) : option PyExn :=
  match cursor_fault F with
  | Some e => Some e
  | None =>
      match first_fault_in F tables with
      | Some e => Some e
      | None => commit_fault F
      end
  end.

(** Whether the deletion meets no such fault. *)
Definition deletion_succeeds (F : Faults) : bool :=
  match first_fault F with
  | None => true
  | Some _ => false
  end.

(** The line [delete_thread] prints. *)
Definition deletion_report (F : Faults) (t_id_str : string) : string :=
  match first_fault F with
  | None => "Successfully deleted thread: " +:+ t_id_str
  | Some e => "Error deleting thread: " +:+ py_str_exn e
  end.

(** A database as the SQLite checkpointer lays it out, with its two tables
    [checkpoints] and [writes], holding two threads. *)
Definition sqlite_saver_db : gmap string (list Row) :=
  {[ "checkpoints" := [mkRow "t1" "checkpoint 1"; mkRow "t2" "checkpoint 2"];
     "writes" := [mkRow "t1" "pending write"] ]}.

Definition sqlite_saver_world : World :=
  mkWorld (mkConn sqlite_saver_db sqlite_saver_db) [].

(** A database file on which nothing was created yet. *)
Definition fresh_world : World := mkWorld (mkConn ∅ ∅) [].

Definition database_is_locked : PyExn := mkExn OperationalError "database is locked".

(** A storage layer that refuses the first statement. *)
Definition locked : Faults :=
  mkFaults None
           (λ table, if String.eqb table "checkpoints" then Some database_is_locked
                     else None)
           None.

(** ** Conversation history *)

Section history.
(** [chatbot.get_state(config).values] for a thread id: the channels of the
    latest checkpoint, or an exception of the checkpointer. *)
Variable get_state_values : string → Exc (gmap string (list BaseMessage)).

Definition load_conversation (thread_id : string) : Exc (list BaseMessage) :=
  try_except
    (values ← get_state_values thread_id ;;;
     Return (default [] (values !! "messages")))
    (λ _, Return []).

(** The loop of [get_thread_messages] over the loaded messages. *)
Fixpoint format_messages (messages : list BaseMessage)
    (formatted_messages : list (gmap string string)) : list (gmap string string) :=
  match messages with
  | [] => formatted_messages
  | msg :: later =>
      if isinstance_HumanMessage msg then
        format_messages later
          (formatted_messages ++ [{[ "role" := "user"; "content" := content msg ]}])
      else if isinstance_AIMessage msg && py_truthy (content msg) then
        format_messages later
          (formatted_messages ++ [{[ "role" := "assistant"; "content" := content msg ]}])
      else format_messages later formatted_messages
  end.

Definition get_thread_messages (thread_id : string)
  : Exc (gmap string (list (gmap string string))) :=
  messages ← load_conversation thread_id ;;;
  Return {[ "messages" := format_messages messages [] ]}.
End history.

(** The display view as the specification words it: the stored messages that
    are user messages, or assistant messages with non-empty content, each as
    a role and a content. *)
Definition displayed (msg : BaseMessage) : bool :=
  match msg with
  | HumanMessage _ => true
  | AIMessage c _ | AIMessageChunk c _ => negb (String.eqb c "")
  | ToolMessage _ _ | SystemMessage _ => false
  end.

Definition display_entry (msg : BaseMessage) : gmap string string :=
  {[ "role" := (if isinstance_HumanMessage msg then "user" else "assistant");
     "content" := content msg ]}.

Definition display_view (messages : list BaseMessage) : list (gmap string string) :=
  display_entry <$> filter (λ msg, displayed msg = true) messages.

(** ** Thread names *)

(** [str.isspace] on one character; a character stands for a code point
    below 256. *)
Definition py_isspace (a : ascii) : bool :=
  let n := N_of_ascii a in
  ((9 <=? n) && (n <=? 13) || (28 <=? n) && (n <=? 32) || (n =? 133) || (n =? 160))%N.

(** The word being read, as a list of the words it makes. *)
Definition flush_word (word : string) : list string :=
  match word with
  | EmptyString => []
  | String _ _ => [word]
  end.

(** [s.split()], reading [s] with the word collected so far. *)
Fixpoint py_split_from (word s : string) : list string :=
  match s with
  | EmptyString => flush_word word
  | String a s' =>
      if py_isspace a then flush_word word ++ py_split_from "" s'
      else py_split_from (word +:+ String a "") s'
  end.

(** [s.split()]: the maximal runs of non-whitespace characters. *)
Definition py_split (s : string) : list string := py_split_from "" s.

(** [sep.join(words)] *)
Fixpoint py_join (sep : string) (words : list string) : string :=
  match words with
  | [] => ""
  | [w] => w
  | w :: later => w +:+ sep +:+ py_join sep later
  end.

(** Strings without a whitespace character, strings of whitespace only, and
    words: the non-empty strings without whitespace. *)
Fixpoint no_space (w : string) : bool :=
  match w with
  | EmptyString => true
  | String a w' => negb (py_isspace a) && no_space w'
  end.

Fixpoint all_space (s : string) : bool :=
  match s with
  | EmptyString => true
  | String a s' => py_isspace a && all_space s'
  end.

Definition is_word (w : string) : Prop := w ≠ "" ∧ no_space w = true.

(** The name [get_thread_name] makes of the first user message. *)
Definition name_of_content (text : string) : string :=
  let words := py_split text in
  py_join " " (take 5 words) +:+ (if 5 <? length words then "..." else "").

Fixpoint get_thread_name (messages : list BaseMessage) : string :=
  match messages with
  | [] => "New Chat"
  | msg :: later =>
      if isinstance_HumanMessage msg then name_of_content (content msg)
      else get_thread_name later
  end.

(** The chunks of a run that carry assistant text. *)
Definition assistant_text (m : BaseMessage) : bool :=
  isinstance_AIMessage m && py_truthy (content m).

(** A run used in the examples: two assistant tokens around a tool call. *)
Definition sample_run : StreamRun :=
  StreamYield (AIMessageChunk "" [mkToolCall "calculator" "{}" "call_1"])
    (StreamYield (ToolMessage "{'result': 3.0}" "call_1")
       (StreamYield (AIMessageChunk "It is " [])
          (StreamYield (AIMessageChunk "3." []) StreamEnd))).

(** ** Listing and creating threads *)

(** What iterating [checkpointer.list(None)] does, step by step: it yields a
    checkpoint, of which the code reads the thread id only, ends, or raises. *)
Inductive CheckpointRun :=
  | ListEnd
  | ListYield (t_id : string) (rest : CheckpointRun)
  | ListRaise (e : PyExn).

(** The [for] loop of [retrieve_all_threads] over the set collected so far. *)
Fixpoint collect_threads (run : CheckpointRun) (all_threads : gset string)
  : Exc (gset string) :=
  match run with
  | ListEnd => Return all_threads
  | ListYield t_id rest =>
      if py_truthy t_id then collect_threads rest (all_threads ∪ {[ t_id ]})
      else collect_threads rest all_threads
  | ListRaise e => Raise e
  end.

(** The thread ids a run yields, and the exception it raises, if any. *)
Fixpoint listed_ids (run : CheckpointRun) : list string :=
  match run with
  | ListYield t_id rest => t_id :: listed_ids rest
  | _ => []
  end.

Fixpoint list_error (run : CheckpointRun) : option PyExn :=
  match run with
  | ListEnd => None
  | ListYield _ rest => list_error rest
  | ListRaise e => Some e
  end.

(** [list(all_threads)] lists the set in an order Python does not specify;
    [elements] stands for it. *)
Definition retrieve_all_threads (run : CheckpointRun) : Exc (list string) :=
  match collect_threads run ∅ with
  | Return all_threads => Return (elements all_threads)
  | Raise e =>
      match exn_class e with
      | OperationalError => Return []
      | _ => Raise e
      end
  end.

(** [x["thread_id"]], the sort key of [get_threads]. *)
Definition thread_key (x : gmap string string) : string :=
  default "" (x !! "thread_id").

(** The order of [sort(key=..., reverse=True)]: larger thread ids first,
    strings compared character by character.  The ids come out of a set, so
    no two entries share a key and the order fixes the sorted list. *)
Definition thread_key_ge (x y : gmap string string) : Prop :=
  String.le (thread_key y) (thread_key x).

#[export] Instance thread_key_ge_dec : RelDecision thread_key_ge.
Proof. intros x y. unfold thread_key_ge. apply _. Defined.

Section get_threads.
Variable get_state_values : string → Exc (gmap string (list BaseMessage)).

(** The loop of [get_threads] over the thread ids. *)
Fixpoint threads_info_loop (all_thread_ids : list string)
    (threads_info : list (gmap string string)) : Exc (list (gmap string string)) :=
  match all_thread_ids with
  | [] => Return threads_info
  | thread_id :: later =>
      messages ← load_conversation get_state_values thread_id ;;;
      let thread_name := get_thread_name messages in
      threads_info_loop later
        (threads_info ++ [{[ "thread_id" := thread_id; "name" := thread_name ]}])
  end.

Definition get_threads (run : CheckpointRun)
  : Exc (gmap string (list (gmap string string))) :=
  all_thread_ids ← retrieve_all_threads run ;;;
  threads_info ← threads_info_loop all_thread_ids [] ;;;
  Return {[ "threads" := merge_sort thread_key_ge threads_info ]}.
End get_threads.

(** The messages [load_conversation] hands to its caller. *)
Definition loaded (get_state_values : string → Exc (gmap string (list BaseMessage)))
    (thread_id : string) : list BaseMessage :=
  match load_conversation get_state_values thread_id with
  | Return messages => messages
  | Raise _ => []
  end.

(** The entry [get_threads] makes for a thread id. *)
Definition thread_info (get_state_values : string → Exc (gmap string (list BaseMessage)))
    (thread_id : string) : gmap string string :=
  {[ "thread_id" := thread_id;
     "name" := get_thread_name (loaded get_state_values thread_id) ]}.

(** A store used in the examples: checkpoints of two threads, one of them
    listed twice, and one checkpoint without a thread id. *)
Definition sample_checkpoints : CheckpointRun :=
  ListYield "t1" (ListYield "" (ListYield "t2" (ListYield "t1" ListEnd))).

(** [create_thread]: [rand] is the entropy [uuid.uuid4()] draws. *)
Definition create_thread (rand : N) : gmap string string :=
  {[ "thread_id" := uuid_str (uuid4 rand) ]}.

(** ** The HTTP layer between the two files *)

(** What the client library hands back for a request that got an answer. *)
Record Response (J : Type) := mkResponse {
  status_code : nat;
  json : J;
}.
Arguments mkResponse {J} status_code json.
Arguments status_code {J} r.
Arguments json {J} r.

(** How the framework answers for an endpoint function: status 200 with the
    returned body, or status 500 without one when the function raises. *)
Definition serve {J} (handled : Exc J) : Response (option J) :=
  match handled with
  | Return body => mkResponse 200 (Some body)
  | Raise _ => mkResponse 500 None
  end.

(** ** The client, [frontend.py] *)

Module Frontend.

(** [get_thread_name] of the client, over the dicts of the history
    endpoint; [msg["content"]] raises [KeyError] on a dict without the key. *)
Fixpoint get_thread_name (messages : list (gmap string string)) : Exc string :=
  match messages with
  | [] => Return "New Chat"
  | msg :: later =>
      if bool_decide (msg !! "role" = Some "user") then
        match msg !! "content" with
        | Some text => Return (name_of_content text)
        | None => Raise (mkExn (OtherException "KeyError") "'content'")
        end
      else get_thread_name later
  end.

(** [delete_thread_from_api]: the request raises or is answered; the body of
    the answer is not read. *)
Definition delete_thread_from_api (answer : Exc (Response (option (gmap string bool))))
  : bool :=
  match answer with
  | Return response => bool_decide (status_code response = 200)
  | Raise _ => false
  end.

(** [load_conversation_from_api]: a failed request, a status other than 200
    and a body without the key all give the empty list. *)
Definition load_conversation_from_api
    (answer : Exc (Response (option (gmap string (list (gmap string string))))))
  : list (gmap string string) :=
  match answer with
  | Return response =>
      if bool_decide (status_code response = 200) then
        match json response with
        | Some data => default [] (data !! "messages")
        | None => []
        end
      else []
  | Raise _ => []
  end.

(** [line[6:]] *)
Fixpoint drop_chars (n : nat) (line : string) : string :=
  match n, line with
  | S n', String _ line' => drop_chars n' line'
  | _, _ => line
  end.

Section stream_reader.
(** [json.loads] on the payload of a line: a dict of strings, or [None] for a
    payload that raises [JSONDecodeError]. *)
Variable json_loads : string → option (gmap string string).

(** The loop over [response.iter_lines()] that builds the text shown for the
    assistant, from [full_response] so far. *)
Fixpoint read_stream (lines : list string) (full_response : string) : string :=
  match lines with
  | [] => full_response
  | line :: later =>
      if py_truthy line && String.prefix "data: " line then
        match json_loads (drop_chars 6 line) with
        | None => read_stream later full_response
        | Some data =>
            if bool_decide (data !! "type" = Some "chunk") then
              read_stream later (full_response +:+ default "" (data !! "content"))
            else if bool_decide (data !! "type" = Some "complete") then
              default "" (data !! "content")
            else if bool_decide (data !! "type" = Some "error") then
              "Error: " +:+ default "Unknown error" (data !! "content")
            else read_stream later full_response
        end
      else read_stream later full_response
  end.
End stream_reader.

End Frontend.

(** The lines the client reads for a list of events: each event is sent as
    [data: <json>] followed by an empty line. *)
Definition sse_lines (json_dumps : gmap string string → string)
    (events : list (gmap string string)) : list string :=
  events ≫= λ ev, ["data: " +:+ json_dumps ev; ""].

(** A stand-in for the JSON codec in the examples: it writes the type and the
    content of an event, and reads back the three events of [sample_run]
    under thread id [t1]. *)
Definition sample_dumps (ev : gmap string string) : string :=
  default "" (ev !! "type") +:+ "|" +:+ default "" (ev !! "content").

Definition sample_loads (payload : string) : option (gmap string string) :=
  if String.eqb payload "chunk|It is " then Some (event "chunk" "It is " "t1")
  else if String.eqb payload "chunk|3." then Some (event "chunk" "3." "t1")
  else if String.eqb payload "complete|It is 3." then Some (event "complete" "It is 3." "t1")
  else None.

(** A stored conversation used in the examples: a question answered through
    a tool call. *)
Definition sample_history : list BaseMessage :=
  [HumanMessage "1 + 2?";
   AIMessage "" [mkToolCall "calculator" "{}" "call_1"];
   ToolMessage "{'result': 3.0}" "call_1";
   AIMessage "It is 3." []].

Definition sample_get_state (thread_id : string) : Exc (gmap string (list BaseMessage)) :=
  if String.eqb thread_id "t1" then Return {[ "messages" := sample_history ]}
  else if String.eqb thread_id "t2" then Return ∅
  else Raise (mkExn OperationalError "no such table: checkpoints").

Example calculator_add_small :
  calculator 1.5%float 2.25%float "add" = Return {[ "result" := PyNum 3.75%float ]}.
Proof. reflexivity. Qed.

Example calculator_add_two53 :
  calculator two53 1%float "add" = Return {[ "result" := PyNum two53 ]}.
Proof. reflexivity. Qed.

Example calculator_add_tenth_fifth :
  calculator tenth fifth "add" = Return {[ "result" := PyNum three_tenths_and_a_bit ]}.
Proof. reflexivity. Qed.

Example exact_sum_small : exactly_correct "add" 1.5%float 2.25%float 3.75%float = true.
Proof. reflexivity. Qed.

Example exact_quotient_small : exactly_correct "div" 7%float 2%float 3.5%float = true.
Proof. reflexivity. Qed.

Example inexact_sum_two53 : exactly_correct "add" two53 1%float two53 = false.
Proof. reflexivity. Qed.

Example calculator_str_sub :
  @calculator string str_operands "7" "2" "sub" =
    Return {[ "error" := PyStr "unsupported operand type(s) for -: 'str' and 'str'" ]}.
Proof. reflexivity. Qed.

Example calculator_nan_divisor :
  calculator 1%float nan "div" = Return {[ "result" := PyNum nan ]}.
Proof. reflexivity. Qed.

Example calculator_negative_zero_divisor :
  calculator 1%float (-0)%float "div" =
    Return {[ "error" := PyStr "Division by zero" ]}.
Proof. reflexivity. Qed.

Example calculator_overflows :
  calculator 0x1p1023%float 2%float "mul" = Return {[ "result" := PyNum infinity ]}.
Proof. reflexivity. Qed.

(** ** Properties of the calculator *)

Lemma Return_inj {A} (x y : A) : Return x = Return y → x = y.
Proof.
  intros Heq.
  exact (f_equal (λ c, match c with Return z => z | Raise _ => x end) Heq).
Qed.

Lemma singleton_result_inj {num} (x y : PyVal num) (k : string) :
  ({[ k := x ]} : gmap string (PyVal num)) = {[ k := y ]} → x = y.
Proof.
  intros Heq. apply (f_equal (λ m, m !! k)) in Heq.
  rewrite !lookup_singleton_eq in Heq. congruence.
Qed.

Lemma eqb_string_neq (s t : string) : s ≠ t → String.eqb s t = false.
Proof. intros Hne. apply String.eqb_neq; exact Hne. Qed.

Section calculator_facts.
Context {num : Type} `{PyNumber num}.

Lemma calculator_of_try (a b : num) (op : string) d :
  calculator_try a b op = Return d → calculator a b op = Return d.
Proof. unfold calculator. intros ->. reflexivity. Qed.

Lemma calculator_unsupported (a b : num) (op : string) :
  op ≠ "add" → op ≠ "sub" → op ≠ "mul" → op ≠ "div" →
  calculator a b op =
    Return {[ "error" := PyStr ("Unsupported operation '" +:+ op +:+ "'") ]}.
Proof.
  intros Ha Hs Hm Hd. apply calculator_of_try. unfold calculator_try.
  rewrite !eqb_string_neq by assumption. reflexivity.
Qed.

Lemma calculator_total (a b : num) (op : string) :
  ∃ d, calculator a b op = Return d.
Proof.
  unfold calculator.
  destruct (calculator_try a b op) as [d|e]; simpl; eauto.
Qed.
End calculator_facts.

(** C6. [calculator] never raises: every call returns a dict.  The dict is
    [{"error": "Division by zero"}] for a division whose divisor compares
    equal to zero, [{"error": "Unsupported operation '<op>'"}] for an operation
    name outside add, sub, mul, div, and [{"error": str(e)}] for an exception
    [e] that the arithmetic raises. *)
Theorem calculator_never_raises {num : Type} `{PyNumber num}
    (a b : num) (op : string) :
  (∃ d, calculator a b op = Return d) ∧
  (py_eq_zero b = Return true →
     calculator a b "div" = Return {[ "error" := PyStr "Division by zero" ]}) ∧
  (op ≠ "add" → op ≠ "sub" → op ≠ "mul" → op ≠ "div" →
     calculator a b op =
       Return {[ "error" := PyStr ("Unsupported operation '" +:+ op +:+ "'") ]}) ∧
  (∀ e, calculator_try a b op = Raise e →
     calculator a b op = Return {[ "error" := PyStr (py_str_exn e) ]}).
Proof.
  split; [apply calculator_total|].
  split.
  { intros Hz. unfold calculator, calculator_try. simpl. rewrite Hz. reflexivity. }
  split; [apply calculator_unsupported|].
  intros e He. unfold calculator. rewrite He. reflexivity.
Qed.

(** On floats the division guard is the comparison [second_num == 0], which
    holds of both zeros. *)
Lemma calculator_float_div_zero (a b : float) :
  (b =? 0)%float = true →
  calculator a b "div" = Return {[ "error" := PyStr "Division by zero" ]}.
Proof.
  intros Hz. unfold calculator, calculator_try. simpl. rewrite Hz. reflexivity.
Qed.

(** On floats the arithmetic itself never raises: the only raising operator
    is the division, and the guard runs before it. *)
Lemma calculator_float_try_returns (a b : float) (op : string) :
  ∃ d, calculator_try a b op = Return d.
Proof.
  unfold calculator_try.
  repeat (destruct (String.eqb op _); [simpl; eauto|]); [|eauto].
  simpl. destruct (b =? 0)%float eqn:Hz; simpl; eauto.
Qed.

Lemma calculator_never_raises_witness :
  (∃ d, calculator 7%float 0%float "mod" = Return d) ∧
  calculator 7%float 0%float "div" = Return {[ "error" := PyStr "Division by zero" ]} ∧
  calculator 7%float 0%float "mod" =
    Return {[ "error" := PyStr "Unsupported operation 'mod'" ]} ∧
  @calculator string str_operands "7" "2" "div" =
    Return {[ "error" := PyStr "unsupported operand type(s) for /: 'str' and 'str'" ]}.
Proof.
  destruct (calculator_never_raises 7%float 0%float "mod") as (Ht & Hz & Hu & _).
  split; [exact Ht|]. split; [|split].
  - apply Hz. reflexivity.
  - apply Hu; discriminate.
  - apply (proj2 (proj2 (proj2
      (@calculator_never_raises string str_operands "7" "2" "div")))
      (mkExn (OtherException "TypeError")
             "unsupported operand type(s) for /: 'str' and 'str'")).
    reflexivity.
Defined.

(** The float the tool returns for each supported operation. *)
Lemma calculator_float_result (a b : float) (op : string) f :
  float_op op = Some f →
  (op = "div" → (b =? 0)%float = false) →
  calculator a b op = Return {[ "result" := PyNum (f a b) ]}.
Proof.
  unfold float_op. intros Hf Hdiv. apply calculator_of_try. unfold calculator_try.
  destruct (String.eqb op "add") eqn:Ea; [injection Hf as <-; reflexivity|].
  destruct (String.eqb op "sub") eqn:Es; [injection Hf as <-; reflexivity|].
  destruct (String.eqb op "mul") eqn:Em; [injection Hf as <-; reflexivity|].
  destruct (String.eqb op "div") eqn:Ed; [|discriminate].
  injection Hf as <-. apply String.eqb_eq in Ed. specialize (Hdiv Ed).
  simpl. rewrite Hdiv. reflexivity.
Qed.

(** C5, as the specification states it, fails: the floats 0.1 and 0.2 have
    an exact sum, and the tool returns 0.30000000000000004, which is another
    number. *)
Lemma calculator_sum_not_exact :
  ¬ ∃ r, calculator tenth fifth "add" = Return {[ "result" := PyNum r ]} ∧
         exactly_correct "add" tenth fifth r = true.
Proof.
  intros (r & Hr & Hexact).
  rewrite calculator_add_tenth_fifth in Hr.
  apply Return_inj, singleton_result_inj in Hr. injection Hr as <-.
  vm_compute in Hexact. discriminate.
Qed.

(** C5, amended. For the operations add, sub, mul and div, except a division
    whose divisor compares equal to zero, [calculator] returns
    [{"result": r}] where [r] is the float sum, difference, product or
    quotient of the operands: the value IEEE 754 binary64 arithmetic
    prescribes, which is the exact result after rounding. *)
Theorem calculator_returns_float_result (a b : float) (op : string)
    (f : float → float → float) :
  float_op op = Some f →
  (op = "div" → (b =? 0)%float = false) →
  calculator a b op = Return {[ "result" := PyNum (f a b) ]} ∧
  ieee_result op (Prim2SF a) (Prim2SF b) = Some (Prim2SF (f a b)).
Proof.
  intros Hf Hdiv. split; [by apply calculator_float_result|].
  revert Hf. unfold float_op, ieee_result.
  repeat (destruct (String.eqb op _); [intros [= <-]; f_equal; symmetry|]).
  - apply add_spec.
  - apply sub_spec.
  - apply mul_spec.
  - apply div_spec.
  - discriminate.
Qed.

Lemma calculator_returns_float_result_witness :
  calculator 7%float 2%float "div" = Return {[ "result" := PyNum 3.5%float ]} ∧
  ieee_result "div" (Prim2SF 7%float) (Prim2SF 2%float) = Some (Prim2SF 3.5%float).
Proof.
  apply (calculator_returns_float_result 7%float 2%float "div" PrimFloat.div).
  - reflexivity.
  - intros _. reflexivity.
Defined.

(** ** Properties of the chat event stream *)

Lemma string_app_cons a (s t : string) : String a s +:+ t = String a (s +:+ t).
Proof. reflexivity. Qed.

Lemma string_app_nil_r (s : string) : s +:+ "" = s.
Proof. induction s as [|a s IH]; [done|]. by rewrite string_app_cons, IH. Qed.

Lemma string_app_assoc (s t u : string) : (s +:+ t) +:+ u = s +:+ t +:+ u.
Proof. induction s as [|a s IH]; [done|]. by rewrite !string_app_cons, IH. Qed.

Lemma event_type (type text thread : string) :
  event type text thread !! "type" = Some type.
Proof. reflexivity. Qed.

Lemma event_content (type text thread : string) :
  event type text thread !! "content" = Some text.
Proof. reflexivity. Qed.

Lemma event_thread_id (type text thread : string) :
  event type text thread !! "thread_id" = Some thread.
Proof. reflexivity. Qed.

Lemma is_chunk_event (type text thread : string) :
  is_chunk (event type text thread) = bool_decide (type = "chunk").
Proof.
  unfold is_chunk. rewrite event_type.
  apply bool_decide_ext. split; congruence.
Qed.

Lemma is_terminal_event (type text thread : string) :
  is_terminal (event type text thread) =
    bool_decide (type = "complete") || bool_decide (type = "error").
Proof.
  unfold is_terminal. rewrite event_type.
  f_equal; apply bool_decide_ext; split; congruence.
Qed.

Lemma chunk_text_cons_chunk (text thread : string) evs :
  chunk_text (event "chunk" text thread :: evs) = text +:+ chunk_text evs.
Proof.
  unfold chunk_text. rewrite filter_cons_True by apply is_chunk_event.
  simpl. by rewrite event_content.
Qed.

Lemma chunk_text_app_terminal evs ev :
  is_chunk ev = false → chunk_text (evs ++ [ev]) = chunk_text evs.
Proof.
  intros Hev. unfold chunk_text. rewrite filter_app.
  rewrite (filter_cons_False _ ev) by (rewrite Hev; discriminate).
  by rewrite filter_nil, app_nil_r.
Qed.

(** What the loop has yielded when it leaves: chunk events only, each from an
    assistant chunk of the run with non-empty content, and on a normal exit
    the accumulator extended by exactly their text. *)
Lemma stream_loop_spec (thread : string) (run : StreamRun) (acc : string) :
  ∀ chunks out, stream_loop thread run acc = (chunks, out) →
    Forall (λ ev, ∃ m, m ∈ stream_items run ∧ isinstance_AIMessage m = true ∧
                       content m ≠ "" ∧ ev = event "chunk" (content m) thread) chunks ∧
    match out with
    | Return full_response =>
        stream_ends run = true ∧ full_response = acc +:+ chunk_text chunks
    | Raise _ => stream_ends run = false
    end.
Proof.
  revert acc. induction run as [|m rest IH|e]; intros acc chunks out Hloop; simpl in *.
  - injection Hloop as <- <-. split; [constructor|].
    split; [done|]. by rewrite string_app_nil_r.
  - destruct (isinstance_AIMessage m && py_truthy (content m)) eqn:Hguard.
    + apply andb_true_iff in Hguard as [Hai Hcontent].
      destruct (stream_loop thread rest (acc +:+ content m)) as [later out'] eqn:Hrest.
      injection Hloop as <- <-.
      destruct (IH _ _ _ Hrest) as [Hall Hout]. split.
      * constructor.
        -- exists m. split; [left|]. split; [exact Hai|]. split; [|reflexivity].
           intros Hempty. rewrite Hempty in Hcontent. discriminate.
        -- eapply Forall_impl; [exact Hall|].
           intros ev (m' & Hin & ?). exists m'. split; [by right|done].
      * destruct out' as [full|e]; [|done].
        destruct Hout as [Hends ->]. split; [done|].
        by rewrite chunk_text_cons_chunk, string_app_assoc.
    + destruct (IH _ _ _ Hloop) as [Hall Hout]. split; [|done].
      eapply Forall_impl; [exact Hall|].
      intros ev (m' & Hin & ?). exists m'. split; [by right|done].
  - injection Hloop as <- <-. split; [constructor|done].
Qed.

(** The shape of the generator's output: the chunk events of the loop, then
    one terminal event that tells how the loop left. *)
Lemma generate_response_shape (thread : string) (run : StreamRun) :
  ∃ chunks terminal,
    generate_response thread run = chunks ++ [terminal] ∧
    Forall (λ ev, ∃ m, m ∈ stream_items run ∧ isinstance_AIMessage m = true ∧
                       content m ≠ "" ∧ ev = event "chunk" (content m) thread) chunks ∧
    ((stream_ends run = true ∧
      terminal = event "complete" (chunk_text chunks) thread) ∨
     (stream_ends run = false ∧
      ∃ e, terminal = event "error" (py_str_exn e) thread)).
Proof.
  unfold generate_response.
  destruct (stream_loop thread run "") as [chunks out] eqn:Hloop.
  destruct (stream_loop_spec _ _ _ _ _ Hloop) as [Hall Hout].
  destruct out as [full|e].
  - destruct Hout as [Hends ->]. exists chunks, (event "complete" (chunk_text chunks) thread).
    split; [done|]. split; [done|]. left. done.
  - exists chunks, (event "error" (py_str_exn e) thread).
    split; [done|]. split; [done|]. right. eauto.
Qed.

Lemma stream_loop_chunks (thread : string) (run : StreamRun) (acc : string) :
  (stream_loop thread run acc).1 =
    (λ m, event "chunk" (content m) thread) <$>
      filter (λ m, assistant_text m = true) (stream_items run).
Proof.
  revert acc. induction run as [|m rest IH|e]; intros acc; simpl; [done| |done].
  unfold assistant_text at 1.
  destruct (isinstance_AIMessage m && py_truthy (content m)) eqn:Hguard.
  - rewrite filter_cons_True by done.
    specialize (IH (acc +:+ content m)).
    destruct (stream_loop thread rest (acc +:+ content m)) as [later out].
    simpl in *. by rewrite IH.
  - rewrite filter_cons_False by (unfold assistant_text; rewrite Hguard; discriminate).
    apply IH.
Qed.

Lemma shape_chunks_are_chunks (thread : string) (run : StreamRun) chunks :
  Forall (λ ev, ∃ m, m ∈ stream_items run ∧ isinstance_AIMessage m = true ∧
                     content m ≠ "" ∧ ev = event "chunk" (content m) thread) chunks →
  Forall (λ ev, is_chunk ev = true ∧ is_terminal ev = false) chunks.
Proof.
  intros Hall. eapply Forall_impl; [exact Hall|].
  intros ev (m & _ & _ & _ & ->).
  by rewrite is_chunk_event, is_terminal_event.
Qed.

Lemma filter_terminal_chunks chunks :
  Forall (λ ev, is_chunk ev = true ∧ is_terminal ev = false) chunks →
  filter (λ ev, is_terminal ev = true) chunks = [].
Proof.
  induction 1 as [|ev evs [_ Hnt] _ IH]; [done|].
  rewrite filter_cons_False by (rewrite Hnt; discriminate). exact IH.
Qed.

(** C1. When the chat call completes (the stream ends without raising) a
    complete event is emitted, and the content of a complete event is the
    concatenation, in emission order, of the contents of the chunk events. *)
Theorem chunks_concatenate_to_complete (thread : string) (run : StreamRun) :
  (stream_ends run = true →
     ∃ ev, ev ∈ generate_response thread run ∧ ev !! "type" = Some "complete") ∧
  (∀ ev, ev ∈ generate_response thread run →
     ev !! "type" = Some "complete" →
     ev !! "content" = Some (chunk_text (generate_response thread run))).
Proof.
  destruct (generate_response_shape thread run)
    as (chunks & terminal & -> & Hall & Hterm).
  apply shape_chunks_are_chunks in Hall.
  assert (Hnc : is_chunk terminal = false).
  { destruct Hterm as [[_ ->]|[_ [e ->]]]; by rewrite is_chunk_event. }
  rewrite chunk_text_app_terminal by exact Hnc. split.
  - intros Hends. destruct Hterm as [[_ ->]|[Hne _]]; [|congruence].
    eexists. split; [apply elem_of_app; right; left|]. apply event_type.
  - intros ev Hin Htype. apply elem_of_app in Hin as [Hin|Hin].
    + rewrite Forall_forall in Hall. destruct (Hall _ Hin) as [Hc _].
      unfold is_chunk in Hc. apply bool_decide_eq_true in Hc. congruence.
    + apply list_elem_of_singleton in Hin as ->.
      destruct Hterm as [[_ ->]|[_ [e ->]]].
      * apply event_content.
      * rewrite event_type in Htype. discriminate.
Qed.

Lemma chunks_concatenate_to_complete_witness :
  event "complete" "It is 3." "t1" ∈ generate_response "t1" sample_run ∧
  event "complete" "It is 3." "t1" !! "content" =
    Some (chunk_text (generate_response "t1" sample_run)).
Proof.
  assert (Hin : event "complete" "It is 3." "t1" ∈ generate_response "t1" sample_run).
  { right. right. left. }
  split; [exact Hin|].
  apply (proj2 (chunks_concatenate_to_complete "t1" sample_run) _ Hin).
  reflexivity.
Defined.

(** C2. The events of a chat call are zero or more chunk events followed by
    one terminal event, which is a complete event or an error event; no other
    event of the call is terminal. *)
Theorem exactly_one_terminal_event (thread : string) (run : StreamRun) :
  ∃ chunks terminal,
    generate_response thread run = chunks ++ [terminal] ∧
    Forall (λ ev, is_chunk ev = true ∧ is_terminal ev = false) chunks ∧
    (terminal !! "type" = Some "complete" ∨ terminal !! "type" = Some "error") ∧
    filter (λ ev, is_terminal ev = true) (generate_response thread run) = [terminal].
Proof.
  destruct (generate_response_shape thread run)
    as (chunks & terminal & Hshape & Hall & Hterm).
  apply shape_chunks_are_chunks in Hall.
  exists chunks, terminal. rewrite Hshape. split; [done|]. split; [done|].
  assert (Htt : is_terminal terminal = true).
  { destruct Hterm as [[_ ->]|[_ [e ->]]]; by rewrite is_terminal_event. }
  split.
  - destruct Hterm as [[_ ->]|[_ [e ->]]]; rewrite event_type; auto.
  - rewrite filter_app, filter_terminal_chunks by done.
    by rewrite filter_cons_True, filter_nil.
Qed.

(** C10. The chunk events of a chat call are, in order, one per message chunk
    of the stream that is an assistant chunk with non-empty content, and carry
    that content; so every chunk event has non-empty content taken from an
    assistant chunk, never from a tool message. *)
Theorem chunk_events_from_assistant_text (thread : string) (run : StreamRun) :
  filter (λ ev, is_chunk ev = true) (generate_response thread run) =
    ((λ m, event "chunk" (content m) thread) <$>
       filter (λ m, assistant_text m = true) (stream_items run)) ∧
  (∀ ev, ev ∈ generate_response thread run → ev !! "type" = Some "chunk" →
     ∃ m, m ∈ stream_items run ∧ isinstance_AIMessage m = true ∧
          isinstance_ToolMessage m = false ∧ content m ≠ "" ∧
          ev !! "content" = Some (content m)).
Proof.
  split.
  - pose proof (stream_loop_chunks thread run "") as Hchunks.
    unfold generate_response.
    destruct (stream_loop thread run "") as [chunks out]. simpl in Hchunks.
    assert (Hkeep : filter (λ ev, is_chunk ev = true) chunks = chunks).
    { rewrite Hchunks. clear.
      induction (filter _ (stream_items run)) as [|m ms IH]; [done|].
      rewrite fmap_cons, filter_cons_True by apply is_chunk_event.
      by rewrite IH. }
    destruct out as [full|e]; rewrite filter_app, Hkeep;
      rewrite filter_cons_False, filter_nil, app_nil_r;
      try done; rewrite is_chunk_event; discriminate.
  - destruct (generate_response_shape thread run)
      as (chunks & terminal & -> & Hall & Hterm).
    intros ev Hin Htype. apply elem_of_app in Hin as [Hin|Hin].
    + rewrite Forall_forall in Hall.
      destruct (Hall _ Hin) as (m & Hm & Hai & Hne & ->).
      exists m. repeat (split; [done|]). split.
      * destruct m; simpl in *; done.
      * split; [done|]. apply event_content.
    + apply list_elem_of_singleton in Hin as ->.
      destruct Hterm as [[_ ->]|[_ [e ->]]];
        rewrite event_type in Htype; discriminate.
Qed.

Lemma chunk_events_from_assistant_text_witness :
  ∃ m, m ∈ stream_items sample_run ∧ isinstance_AIMessage m = true ∧
       isinstance_ToolMessage m = false ∧ content m ≠ "" ∧
       event "chunk" "3." "t1" !! "content" = Some (content m).
Proof.
  apply (proj2 (chunk_events_from_assistant_text "t1" sample_run)).
  - right. left.
  - reflexivity.
Defined.

(** ** Properties of the thread id of a chat turn *)

Lemma string_length_app (s t : string) :
  String.length (s +:+ t) = String.length s + String.length t.
Proof.
  induction s as [|a s IH]; [done|].
  rewrite string_app_cons. simpl. by rewrite IH.
Qed.

Lemma hex_digits_length (k : nat) (lo n : N) : String.length (hex_digits k lo n) = k.
Proof. induction k as [|k IH]; simpl; [done|]. by rewrite IH. Qed.

Lemma uuid_str_length (int : N) : String.length (uuid_str int) = 36.
Proof.
  unfold uuid_str. rewrite !string_length_app, !hex_digits_length. reflexivity.
Qed.

Lemma uuid_str_nonempty (int : N) : uuid_str int ≠ "".
Proof.
  intros Hempty. pose proof (uuid_str_length int) as Hlen.
  rewrite Hempty in Hlen. discriminate.
Qed.

Example uuid4_of_zero : uuid_str (uuid4 0) = "00000000-0000-4000-8000-000000000000".
Proof. reflexivity. Qed.

Example uuid4_of_ones :
  uuid_str (uuid4 (N.ones 128)) = "ffffffff-ffff-4fff-bfff-ffffffffffff".
Proof. reflexivity. Qed.

Lemma generate_response_thread_id (thread : string) (run : StreamRun) :
  Forall (λ ev, ev !! "thread_id" = Some thread) (generate_response thread run).
Proof.
  destruct (generate_response_shape thread run)
    as (chunks & terminal & -> & Hall & Hterm).
  apply Forall_app. split.
  - eapply Forall_impl; [exact Hall|].
    intros ev (m & _ & _ & _ & ->). apply event_thread_id.
  - constructor; [|constructor].
    destruct Hterm as [[_ ->]|[_ [e ->]]]; apply event_thread_id.
Qed.

(** A thread id the request supplies is used as it is when it is truthy. *)
Lemma chat_endpoint_given_thread_id chatbot_stream (rand : N) (request : ChatRequest) t :
  thread_id request = Some t → t ≠ "" →
  turn_thread_id (chat_endpoint chatbot_stream rand request) = t.
Proof.
  intros Ht Hne. unfold chat_endpoint. rewrite Ht. simpl.
  destruct t; [done|reflexivity].
Qed.

(** An absent thread id is replaced like an empty one. *)
Lemma chat_endpoint_absent_thread_id chatbot_stream (rand : N) (request : ChatRequest) :
  thread_id request = None →
  turn_thread_id (chat_endpoint chatbot_stream rand request) = uuid_str (uuid4 rand).
Proof. intros Ht. unfold chat_endpoint. by rewrite Ht. Qed.

(** C9. A chat request whose [thread_id] is the empty string gets the string
    of a newly drawn version 4 UUID as its thread id: that id, which is never
    empty, is the one the graph is run under and the one every emitted event
    carries. *)
Theorem empty_thread_id_gets_uuid (chatbot_stream : string → string → StreamRun)
    (rand : N) (request : ChatRequest) :
  thread_id request = Some "" →
  let turn := chat_endpoint chatbot_stream rand request in
  turn_thread_id turn = uuid_str (uuid4 rand) ∧
  turn_thread_id turn ≠ "" ∧
  turn_events turn =
    generate_response (uuid_str (uuid4 rand))
      (chatbot_stream (uuid_str (uuid4 rand)) (message request)) ∧
  Forall (λ ev, ev !! "thread_id" = Some (uuid_str (uuid4 rand)) ∧
                ev !! "thread_id" ≠ Some "") (turn_events turn).
Proof.
  intros Hempty. unfold chat_endpoint. rewrite Hempty. simpl.
  split; [done|]. split; [apply uuid_str_nonempty|]. split; [done|].
  eapply Forall_impl; [apply generate_response_thread_id|].
  intros ev Hev. split; [done|].
  simpl in Hev. rewrite Hev. intros Heq.
  apply (uuid_str_nonempty (uuid4 rand)). congruence.
Qed.

Lemma empty_thread_id_gets_uuid_witness :
  turn_thread_id
    (chat_endpoint (λ _ _, sample_run) 0 (mkChatRequest "1 + 2?" (Some ""))) =
    "00000000-0000-4000-8000-000000000000" ∧
  turn_thread_id
    (chat_endpoint (λ _ _, sample_run) 0 (mkChatRequest "1 + 2?" (Some ""))) ≠ "".
Proof.
  destruct (empty_thread_id_gets_uuid (λ _ _, sample_run) 0
              (mkChatRequest "1 + 2?" (Some "")) eq_refl) as (Hid & Hne & _).
  split; [exact Hid|exact Hne].
Defined.

(** ** Properties of thread deletion *)

Lemma is_missing_table_no_such_table (table : string) :
  is_missing_table (mkExn OperationalError ("no such table: " +:+ table)) = true.
Proof. reflexivity. Qed.

(** How the loop leaves depends on the faults alone, not on which tables
    exist. *)
Lemma delete_from_outcome (F : Faults) (t_id_str : string) (tbls : list string) (c : Conn) :
  (delete_from F t_id_str tbls c).1 =
    match first_fault_in F tbls with
    | Some e => Raise e
    | None => Return ()
    end.
Proof.
  revert c. induction tbls as [|table rest IH]; intros c; simpl; [done|].
  unfold execute_delete.
  destruct (execute_fault F table) as [e|].
  - destruct (is_missing_table e); [apply IH|done].
  - destruct (working c !! table) as [rows|].
    + apply IH.
    + rewrite is_missing_table_no_such_table. apply IH.
Qed.

Lemma delete_thread_outcome (F : Faults) (thread : string) (w : World) :
  (delete_thread F thread w).1 = Return (deletion_succeeds F) ∧
  stdout (delete_thread F thread w).2 = stdout w ++ [deletion_report F thread].
Proof.
  unfold delete_thread, delete_thread_try, deletion_succeeds, deletion_report, first_fault.
  destruct (cursor_fault F) as [e|]; [done|].
  pose proof (delete_from_outcome F thread tables (conn w)) as Hloop.
  destruct (delete_from F thread tables (conn w)) as [out c]. cbn [fst] in Hloop.
  destruct (first_fault_in F tables) as [e|]; subst out; [done|].
  unfold commit. destruct (commit_fault F) as [e|]; done.
Qed.

Lemma keep_other_threads_id (t_id_str : string) (rows : list Row) :
  Forall (λ r, row_thread_id r ≠ t_id_str) rows →
  keep_other_threads t_id_str rows = rows.
Proof.
  unfold keep_other_threads. induction 1 as [|r rows Hr _ IH]; [done|].
  by rewrite filter_cons_True, IH.
Qed.

Lemma keep_other_threads_clean (t_id_str : string) (rows : list Row) :
  Forall (λ r, row_thread_id r ≠ t_id_str) (keep_other_threads t_id_str rows).
Proof.
  unfold keep_other_threads. apply Forall_forall. intros r Hin.
  by apply list_elem_of_filter in Hin as [? _].
Qed.

(** Deleting the rows of a thread that has none changes nothing. *)
Lemma delete_from_no_rows (F : Faults) (t_id_str : string) (tbls : list string) (c : Conn) :
  no_rows_of t_id_str (working c) → (delete_from F t_id_str tbls c).2 = c.
Proof.
  intros Hnone. induction tbls as [|table rest IH]; simpl; [done|].
  unfold execute_delete.
  destruct (execute_fault F table) as [e|].
  - destruct (is_missing_table e); [apply IH|done].
  - destruct (working c !! table) as [rows|] eqn:Hrows.
    + rewrite keep_other_threads_id by exact (Hnone _ _ Hrows).
      rewrite insert_id by exact Hrows. destruct c; apply IH.
    + rewrite is_missing_table_no_such_table. apply IH.
Qed.

(** A table is clean when it holds no row of the thread. *)
Lemma execute_delete_keeps_clean (F : Faults) (t_id_str table table' : string) (c : Conn) :
  (∀ rows, working c !! table' = Some rows →
           Forall (λ r, row_thread_id r ≠ t_id_str) rows) →
  ∀ rows, working (execute_delete F table t_id_str c).2 !! table' = Some rows →
          Forall (λ r, row_thread_id r ≠ t_id_str) rows.
Proof.
  intros Hclean rows. unfold execute_delete.
  destruct (execute_fault F table) as [e|]; [apply Hclean|].
  destruct (working c !! table) as [old|] eqn:Hold; [|apply Hclean]. simpl.
  destruct (decide (table = table')) as [->|Hne].
  - rewrite lookup_insert_eq. intros [= <-]. apply keep_other_threads_clean.
  - rewrite lookup_insert_ne by done. apply Hclean.
Qed.

Lemma delete_from_keeps_clean (F : Faults) (t_id_str table' : string)
    (tbls : list string) (c : Conn) :
  (∀ rows, working c !! table' = Some rows →
           Forall (λ r, row_thread_id r ≠ t_id_str) rows) →
  ∀ rows, working (delete_from F t_id_str tbls c).2 !! table' = Some rows →
          Forall (λ r, row_thread_id r ≠ t_id_str) rows.
Proof.
  revert c. induction tbls as [|table rest IH]; intros c Hclean; simpl; [done|].
  pose proof (execute_delete_keeps_clean F t_id_str table table' c Hclean) as Hstep.
  destruct (execute_delete F table t_id_str c) as [[[]|e] c']; simpl in Hstep.
  - by apply IH.
  - destruct (is_missing_table e); [by apply IH|done].
Qed.

Lemma delete_from_no_faults_cons (t_id_str table : string) (rest : list string) (c : Conn) :
  delete_from no_faults t_id_str (table :: rest) c =
    delete_from no_faults t_id_str rest (execute_delete no_faults table t_id_str c).2.
Proof.
  simpl. unfold execute_delete. simpl.
  destruct (working c !! table); [done|].
  by rewrite is_missing_table_no_such_table.
Qed.

(** On a storage layer without faults, the loop leaves every table of its
    list clean. *)
Lemma delete_from_cleans (t_id_str table' : string) (tbls : list string) (c : Conn) :
  table' ∈ tbls →
  ∀ rows, working (delete_from no_faults t_id_str tbls c).2 !! table' = Some rows →
          Forall (λ r, row_thread_id r ≠ t_id_str) rows.
Proof.
  revert c. induction tbls as [|table rest IH]; intros c Hin.
  { by apply elem_of_nil in Hin. }
  rewrite delete_from_no_faults_cons.
  destruct (decide (table' = table)) as [->|Hne].
  - apply delete_from_keeps_clean.
    unfold execute_delete. simpl.
    destruct (working c !! table) as [old|] eqn:Hold; simpl.
    + rewrite lookup_insert_eq. intros rows [= <-]. apply keep_other_threads_clean.
    + rewrite Hold. discriminate.
  - apply elem_of_cons in Hin as [?|Hin]; [done|]. by apply IH.
Qed.

(** X9. On a storage layer without faults [delete_thread] commits a database
    in which the three tables it names hold no row of the thread. *)
Lemma delete_thread_cleans_named_tables (thread table : string) (w : World) :
  table ∈ tables →
  ∀ rows, committed (conn (delete_thread no_faults thread w).2) !! table = Some rows →
          Forall (λ r, row_thread_id r ≠ thread) rows.
Proof.
  intros Hin rows. unfold delete_thread, delete_thread_try.
  change (cursor_fault no_faults) with (@None PyExn). cbv iota.
  pose proof (delete_from_outcome no_faults thread tables (conn w)) as Hout.
  pose proof (delete_from_cleans thread table tables (conn w) Hin rows) as Hclean.
  destruct (delete_from no_faults thread tables (conn w)) as [out c].
  cbn [fst snd] in *. change (first_fault_in no_faults tables) with (@None PyExn) in Hout.
  subst out. exact Hclean.
Qed.

(** C3. [delete_thread] deletes from the tables [checkpoints],
    [checkpoint_writes] and [checkpoint_blobs] only.  On the database of the
    SQLite checkpointer, whose second table is [writes], it reports success,
    removes the thread's checkpoint, and leaves the thread's pending write
    persisted: state of the deleted thread remains in the store. *)
Theorem delete_thread_leaves_writes_rows :
  (delete_thread no_faults "t1" sqlite_saver_world).1 = Return true ∧
  committed (conn (delete_thread no_faults "t1" sqlite_saver_world).2) !! "checkpoints"
    = Some [mkRow "t2" "checkpoint 2"] ∧
  committed (conn (delete_thread no_faults "t1" sqlite_saver_world).2) !! "writes"
    = Some [mkRow "t1" "pending write"] ∧
  ¬ no_rows_of "t1" (committed (conn (delete_thread no_faults "t1" sqlite_saver_world).2)).
Proof.
  assert (Hwrites :
    committed (conn (delete_thread no_faults "t1" sqlite_saver_world).2) !! "writes"
      = Some [mkRow "t1" "pending write"]) by reflexivity.
  split; [reflexivity|]. split; [reflexivity|]. split; [exact Hwrites|].
  intros Hnone. specialize (Hnone _ _ Hwrites).
  apply Forall_cons in Hnone as [Hrow _]. by apply Hrow.
Qed.

(** C4, as the specification states it, fails: a locked database is a fault
    other than a missing table, and [delete_thread] returns [False] to its
    caller instead of raising. *)
Lemma delete_thread_catches_locked_database :
  first_fault locked = Some database_is_locked ∧
  is_missing_table database_is_locked = false ∧
  (delete_thread locked "t1" sqlite_saver_world).1 = Return false ∧
  (delete_thread locked "t1" sqlite_saver_world).1 ≠ Raise database_is_locked.
Proof.
  split; [reflexivity|]. split; [reflexivity|]. split; [reflexivity|].
  change (Return false ≠ @Raise bool database_is_locked). discriminate.
Qed.

(** C4, amended. [delete_thread] takes a missing table for nothing to delete
    and goes on with the next table; any other fault raised during the
    deletion or the commit is caught inside [delete_thread], printed, and
    reported to the caller as the return value [False].  [delete_thread]
    returns [True] exactly when no such fault occurs, whichever tables
    exist. *)
Theorem delete_thread_reports_faults (F : Faults) (thread : string) (w : World) :
  (delete_thread F thread w).1 = Return (deletion_succeeds F) ∧
  stdout (delete_thread F thread w).2 = stdout w ++ [deletion_report F thread] ∧
  (∀ table, working (conn w) !! table = None → execute_fault F table = None →
     (execute_delete F table thread (conn w)).1 =
       Raise (mkExn OperationalError ("no such table: " +:+ table)) ∧
     ∀ rest, delete_from F thread (table :: rest) (conn w) =
             delete_from F thread rest (conn w)).
Proof.
  destruct (delete_thread_outcome F thread w) as [Hret Hout].
  split; [exact Hret|]. split; [exact Hout|].
  intros table Hmissing Hfault. unfold execute_delete.
  split.
  - by rewrite Hfault, Hmissing.
  - intros rest. simpl. unfold execute_delete. rewrite Hfault, Hmissing.
    by rewrite is_missing_table_no_such_table.
Qed.

Lemma delete_thread_reports_faults_witness :
  (delete_thread no_faults "t1" fresh_world).1 = Return true ∧
  (execute_delete no_faults "checkpoints" "t1" (conn fresh_world)).1 =
    Raise (mkExn OperationalError "no such table: checkpoints").
Proof.
  destruct (delete_thread_reports_faults no_faults "t1" fresh_world) as (Hret & _ & Hmiss).
  split; [exact Hret|].
  exact (proj1 (Hmiss "checkpoints" eq_refl eq_refl)).
Defined.

(** C7. [delete_thread] never raises.  For a thread id that has no row in any
    table, on a storage layer that raises nothing but missing-table errors,
    it returns [True] and leaves the contents of the database as they
    were. *)
Theorem delete_unknown_thread_is_noop (F : Faults) (thread : string) (w : World) :
  (∃ success, (delete_thread F thread w).1 = Return success) ∧
  (first_fault F = None → no_rows_of thread (working (conn w)) →
     (delete_thread F thread w).1 = Return true ∧
     working (conn (delete_thread F thread w).2) = working (conn w) ∧
     committed (conn (delete_thread F thread w).2) = working (conn w)).
Proof.
  destruct (delete_thread_outcome F thread w) as [Hret _].
  split; [eauto|]. intros Hok Hnone. split.
  { rewrite Hret. unfold deletion_succeeds. by rewrite Hok. }
  unfold first_fault in Hok.
  unfold delete_thread, delete_thread_try.
  destruct (cursor_fault F) as [e|]; [discriminate|].
  pose proof (delete_from_outcome F thread tables (conn w)) as Hout.
  pose proof (delete_from_no_rows F thread tables (conn w) Hnone) as Hsame.
  destruct (delete_from F thread tables (conn w)) as [out c]. cbn [fst snd] in *.
  destruct (first_fault_in F tables) as [e|]; [discriminate|].
  subst out c. unfold commit. rewrite Hok. done.
Qed.

Lemma delete_unknown_thread_is_noop_witness :
  (delete_thread no_faults "t9" sqlite_saver_world).1 = Return true ∧
  working (conn (delete_thread no_faults "t9" sqlite_saver_world).2) = sqlite_saver_db.
Proof.
  assert (Hnone : no_rows_of "t9" (working (conn sqlite_saver_world))).
  { intros table rows Hrows. simpl in Hrows. unfold sqlite_saver_db in Hrows.
    apply lookup_insert_Some in Hrows as [[_ <-]|[_ Hrows]].
    - repeat constructor; discriminate.
    - apply lookup_singleton_Some in Hrows as [_ <-].
      repeat constructor; discriminate. }
  destruct (proj2 (delete_unknown_thread_is_noop no_faults "t9" sqlite_saver_world)
              eq_refl Hnone) as (Hret & Hwork & _).
  split; [exact Hret|exact Hwork].
Defined.

(** ** Properties of the history endpoint *)

Lemma load_conversation_total get_state_values (thread : string) :
  ∃ stored, load_conversation get_state_values thread = Return stored ∧
    ∀ values, get_state_values thread = Return values →
              stored = default [] (values !! "messages").
Proof.
  unfold load_conversation.
  destruct (get_state_values thread) as [values|e]; simpl.
  - eexists. split; [reflexivity|]. by intros ? [= <-]%Return_inj.
  - eexists. split; [reflexivity|]. discriminate.
Qed.

Lemma py_truthy_nonempty (s : string) : py_truthy s = negb (String.eqb s "").
Proof. by destruct s. Qed.

Lemma display_view_cons (msg : BaseMessage) (later : list BaseMessage) :
  display_view (msg :: later) =
    if displayed msg then display_entry msg :: display_view later
    else display_view later.
Proof.
  unfold display_view. destruct (displayed msg) eqn:Hshown.
  - by rewrite filter_cons_True.
  - rewrite filter_cons_False; [done|]. rewrite Hshown. discriminate.
Qed.

(** The loop appends to its accumulator the display view of what it reads. *)
Lemma format_messages_view (messages : list BaseMessage) acc :
  format_messages messages acc = acc ++ display_view messages.
Proof.
  revert acc. induction messages as [|msg later IH]; intros acc.
  { simpl. by rewrite app_nil_r. }
  rewrite display_view_cons. cbn [format_messages].
  destruct msg as [c|c calls|c calls|c call|c];
    cbn [isinstance_HumanMessage isinstance_AIMessage displayed content andb];
    rewrite ?py_truthy_nonempty; try apply IH.
  - rewrite IH, <- app_assoc. done.
  - destruct (negb (String.eqb c "")); [|apply IH].
    rewrite IH, <- app_assoc. done.
  - destruct (negb (String.eqb c "")); [|apply IH].
    rewrite IH, <- app_assoc. done.
Qed.

Lemma display_view_entries (stored : list BaseMessage) :
  Forall (λ entry, ∃ msg, msg ∈ stored ∧
            isinstance_ToolMessage msg = false ∧
            entry !! "content" = Some (content msg) ∧
            ((isinstance_HumanMessage msg = true ∧ entry !! "role" = Some "user") ∨
             (isinstance_AIMessage msg = true ∧ content msg ≠ "" ∧
              entry !! "role" = Some "assistant")))
         (display_view stored).
Proof.
  apply Forall_forall. intros entry Hin. unfold display_view in Hin.
  apply list_elem_of_fmap in Hin as (msg & -> & Hin).
  apply list_elem_of_filter in Hin as [Hshown Hin].
  exists msg. split; [done|].
  destruct msg as [c|c calls|c calls|c call|c]; simpl in *; try discriminate.
  - split; [done|]. split; [done|]. left. done.
  - split; [done|]. split; [done|]. right. split; [done|]. split; [|done].
    intros ->. discriminate.
  - split; [done|]. split; [done|]. right. split; [done|]. split; [|done].
    intros ->. discriminate.
Qed.

(** C8. The history endpoint returns, in stored order, the user messages and
    the assistant messages with non-empty content of the thread, each as a
    dict with role user or assistant and the message's content; tool messages
    and assistant messages with empty content are left out. *)
Theorem get_thread_messages_display_view
    (get_state_values : string → Exc (gmap string (list BaseMessage)))
    (thread : string) :
  ∃ stored,
    load_conversation get_state_values thread = Return stored ∧
    (∀ values, get_state_values thread = Return values →
               stored = default [] (values !! "messages")) ∧
    get_thread_messages get_state_values thread =
      Return {[ "messages" := display_view stored ]} ∧
    Forall (λ entry, ∃ msg, msg ∈ stored ∧
              isinstance_ToolMessage msg = false ∧
              entry !! "content" = Some (content msg) ∧
              ((isinstance_HumanMessage msg = true ∧ entry !! "role" = Some "user") ∨
               (isinstance_AIMessage msg = true ∧ content msg ≠ "" ∧
                entry !! "role" = Some "assistant")))
           (display_view stored).
Proof.
  destruct (load_conversation_total get_state_values thread) as (stored & Hload & Hvalues).
  exists stored. split; [exact Hload|]. split; [exact Hvalues|]. split.
  - unfold get_thread_messages. rewrite Hload. simpl.
    by rewrite format_messages_view.
  - apply display_view_entries.
Qed.

Example get_thread_messages_sample :
  get_thread_messages sample_get_state "t1" =
    Return {[ "messages" :=
      [ {[ "role" := "user"; "content" := "1 + 2?" ]};
        {[ "role" := "assistant"; "content" := "It is 3." ]} ] ]}.
Proof. reflexivity. Qed.

Example get_thread_messages_unknown_thread :
  get_thread_messages sample_get_state "t3" = Return {[ "messages" := [] ]}.
Proof. reflexivity. Qed.

Lemma get_thread_messages_display_view_witness :
  ∃ stored,
    stored = sample_history ∧
    get_thread_messages sample_get_state "t1" =
      Return {[ "messages" := display_view stored ]}.
Proof.
  destruct (get_thread_messages_display_view sample_get_state "t1")
    as (stored & _ & Hvalues & Hview & _).
  exists stored. split; [|exact Hview].
  exact (Hvalues {[ "messages" := sample_history ]} eq_refl).
Defined.

(** ** Properties of thread names *)

Lemma flush_word_nonempty (word : string) : word ≠ "" → flush_word word = [word].
Proof. by destruct word. Qed.

Lemma no_space_app (u v : string) :
  no_space (u +:+ v) = no_space u && no_space v.
Proof.
  induction u as [|a u IH]; [done|].
  rewrite string_app_cons. simpl. by rewrite IH, andb_assoc.
Qed.

Lemma string_app_nonempty_l (u v : string) : u ≠ "" → u +:+ v ≠ "".
Proof. by destruct u. Qed.

(** Reading on through characters that are not whitespace only extends the
    word being read. *)
Lemma py_split_from_word (word w rest : string) :
  no_space w = true →
  py_split_from word (w +:+ rest) = py_split_from (word +:+ w) rest.
Proof.
  revert word. induction w as [|a w IH]; intros word Hw.
  - by rewrite string_app_nil_r.
  - simpl in Hw. apply andb_true_iff in Hw as [Ha Hw].
    rewrite string_app_cons. simpl.
    destruct (py_isspace a); [done|].
    rewrite IH by done. f_equal.
    by rewrite string_app_assoc.
Qed.

(** What [split] returns are words. *)
Lemma py_split_from_words (word s : string) :
  no_space word = true → Forall is_word (py_split_from word s).
Proof.
  revert word. induction s as [|a s IH]; intros word Hword; simpl.
  - destruct word; repeat constructor; done.
  - destruct (py_isspace a) eqn:Ha.
    + apply Forall_app. split; [|by apply IH].
      destruct word; repeat constructor; done.
    + apply IH. rewrite no_space_app, Hword. simpl. by rewrite Ha.
Qed.

Lemma py_split_words (s : string) : Forall is_word (py_split s).
Proof. by apply py_split_from_words. Qed.

Lemma py_split_all_space (s : string) : all_space s = true → py_split s = [].
Proof.
  unfold py_split. induction s as [|a s IH]; [done|]. simpl.
  intros [Ha Hs]%andb_true_iff. rewrite Ha. by apply IH.
Qed.

(** Joining words with single spaces and splitting again gives the words
    back. *)
Lemma py_split_join (words : list string) :
  Forall is_word words → py_split (py_join " " words) = words.
Proof.
  unfold py_split. induction 1 as [|w later [Hne Hw] Hlater IH]; [done|].
  destruct later as [|w' later].
  - simpl. rewrite <- (string_app_nil_r w) at 1.
    rewrite py_split_from_word by done. simpl. by apply flush_word_nonempty.
  - change (py_join " " (w :: w' :: later))
      with (w +:+ String " " (py_join " " (w' :: later))).
    rewrite py_split_from_word by done.
    change (py_split_from ("" +:+ w) (String " " (py_join " " (w' :: later))))
      with (flush_word w ++ py_split_from "" (py_join " " (w' :: later))).
    by rewrite IH, flush_word_nonempty.
Qed.

Lemma py_join_snoc_suffix (words : list string) (w suffix : string) :
  py_join " " (words ++ [w]) +:+ suffix = py_join " " (words ++ [w +:+ suffix]).
Proof.
  induction words as [|x words IH]; [done|].
  destruct words as [|y words].
  - simpl. by rewrite !string_app_assoc.
  - change (py_join " " ((x :: y :: words) ++ [w]))
      with (x +:+ " " +:+ py_join " " ((y :: words) ++ [w])).
    change (py_join " " ((x :: y :: words) ++ [w +:+ suffix]))
      with (x +:+ " " +:+ py_join " " ((y :: words) ++ [w +:+ suffix])).
    by rewrite <- IH, !string_app_assoc.
Qed.

Lemma get_thread_name_skip (before messages : list BaseMessage) :
  Forall (λ msg, isinstance_HumanMessage msg = false) before →
  get_thread_name (before ++ messages) = get_thread_name messages.
Proof.
  induction 1 as [|msg before Hmsg _ IH]; [done|].
  simpl. by rewrite Hmsg.
Qed.

(** X1. A conversation without a user message, the empty one included, is
    named "New Chat". *)
Theorem thread_without_user_message_is_new_chat (messages : list BaseMessage) :
  Forall (λ msg, isinstance_HumanMessage msg = false) messages →
  get_thread_name messages = "New Chat".
Proof.
  intros Hnone. rewrite <- (app_nil_r messages).
  by rewrite get_thread_name_skip.
Qed.

Lemma thread_without_user_message_is_new_chat_witness :
  get_thread_name [SystemMessage "Be brief."; AIMessage "Hello." []] = "New Chat".
Proof.
  apply thread_without_user_message_is_new_chat.
  repeat constructor.
Defined.

(** X2. The name of a thread depends on its first user message alone: what
    precedes it and what follows it play no part. *)
Theorem thread_name_from_first_user_message
    (before later : list BaseMessage) (text : string) :
  Forall (λ msg, isinstance_HumanMessage msg = false) before →
  get_thread_name (before ++ HumanMessage text :: later) =
    get_thread_name [HumanMessage text].
Proof. intros Hbefore. by rewrite get_thread_name_skip. Qed.

Lemma thread_name_from_first_user_message_witness :
  get_thread_name ([SystemMessage "Be brief."] ++
                   HumanMessage "1 + 2?" :: [AIMessage "3" []; HumanMessage "and 4 * 5?"]) =
    get_thread_name [HumanMessage "1 + 2?"].
Proof.
  apply thread_name_from_first_user_message.
  repeat constructor.
Defined.

(** X3. A name made of a message of at most five words splits back into
    exactly the words of the message; a name made of a longer message has five
    words: the first four of the message, and the fifth with the ellipsis
    attached. *)
Theorem thread_name_words (text : string) :
  (length (py_split text) ≤ 5 →
     name_of_content text = py_join " " (py_split text) ∧
     py_split (name_of_content text) = py_split text) ∧
  (5 < length (py_split text) →
     ∃ w5, py_split text !! 4 = Some w5 ∧
           py_split (name_of_content text) = take 4 (py_split text) ++ [w5 +:+ "..."]).
Proof.
  pose proof (py_split_words text) as Hwords.
  unfold name_of_content. split; intros Hlen.
  - rewrite take_ge by done.
    destruct (5 <? length (py_split text)) eqn:Hlt.
    { apply Nat.ltb_lt in Hlt. lia. }
    rewrite string_app_nil_r. split; [done|]. by apply py_split_join.
  - apply Nat.ltb_lt in Hlen as Hlt. rewrite Hlt.
    destruct (lookup_lt_is_Some_2 (py_split text) 4) as [w5 Hw5]; [lia|].
    exists w5. split; [done|].
    assert (Htake : take 5 (py_split text) = take 4 (py_split text) ++ [w5]).
    { by rewrite (take_S_r _ 4 w5). }
    rewrite Htake, py_join_snoc_suffix. apply py_split_join.
    apply Forall_app. split; [by apply Forall_take|].
    constructor; [|constructor].
    rewrite Forall_forall in Hwords.
    destruct (Hwords w5) as [Hne Hns]; [by eapply list_elem_of_lookup_2|].
    split; [by apply string_app_nonempty_l|].
    by rewrite no_space_app, Hns.
Qed.

Example thread_name_of_long_question :
  get_thread_name
    [HumanMessage "What is the capital of France and how big is it"] =
    "What is the capital of...".
Proof. reflexivity. Qed.

Lemma thread_name_words_witness :
  py_split (name_of_content "  Hello   there ") = ["Hello"; "there"] ∧
  py_split (name_of_content "What is the capital of France and how big is it") =
    ["What"; "is"; "the"; "capital"; "of..."].
Proof.
  split.
  - apply (proj1 (thread_name_words "  Hello   there ")). vm_compute. lia.
  - destruct (proj2 (thread_name_words
        "What is the capital of France and how big is it")) as (w5 & Hw5 & Hsplit).
    { vm_compute. lia. }
    injection Hw5 as <-. exact Hsplit.
Defined.

(** X4. A first user message that holds whitespace only, or nothing, gives the
    thread the empty name, not "New Chat". *)
Theorem blank_user_message_gives_empty_name
    (before later : list BaseMessage) (text : string) :
  Forall (λ msg, isinstance_HumanMessage msg = false) before →
  all_space text = true →
  get_thread_name (before ++ HumanMessage text :: later) = "".
Proof.
  intros Hbefore Hblank. rewrite get_thread_name_skip by done.
  simpl. unfold name_of_content. by rewrite py_split_all_space.
Qed.

Lemma blank_user_message_gives_empty_name_witness :
  get_thread_name ([] ++ HumanMessage "   " :: [AIMessage "Yes?" []]) = "".
Proof.
  apply blank_user_message_gives_empty_name; [constructor|reflexivity].
Defined.

(** ** Properties of the thread list *)

Lemma collect_threads_outcome (run : CheckpointRun) (seen : gset string) :
  match collect_threads run seen with
  | Return all_threads =>
      list_error run = None ∧
      ∀ t, t ∈ all_threads ↔ t ∈ seen ∨ (t ∈ listed_ids run ∧ t ≠ "")
  | Raise e => list_error run = Some e
  end.
Proof.
  revert seen. induction run as [|t_id rest IH|e]; intros seen; simpl.
  - split; [done|]. intros t. split; [auto|]. intros [?|[Hin _]]; [done|].
    by apply elem_of_nil in Hin.
  - destruct t_id as [|a t_id]; simpl.
    + specialize (IH seen). destruct (collect_threads rest seen) as [s|e]; [|done].
      destruct IH as [Herr Hs]. split; [done|]. intros t. rewrite Hs.
      rewrite elem_of_cons. split.
      * intros [?|[? ?]]; [by left|right]. split; auto.
      * intros [?|[[Heq|?] Hne]]; [by left| |by right]. by destruct Hne.
    + specialize (IH (seen ∪ {[String a t_id]})).
      destruct (collect_threads rest (seen ∪ {[String a t_id]})) as [s|e]; [|done].
      destruct IH as [Herr Hs]. split; [done|]. intros t. rewrite Hs.
      rewrite elem_of_cons, elem_of_union, elem_of_singleton.
      split.
      * intros [[?|Heq]|[? ?]]; [by left|right|right]; split; auto.
        by rewrite Heq.
      * intros [?|[[Heq|?] ?]]; [by left; left|by left; right|by right].
  - done.
Qed.

(** X5. When listing the checkpoints raises nothing, [retrieve_all_threads]
    returns every non-empty thread id that a checkpoint carries, each one
    once, and nothing else. *)
Theorem retrieve_all_threads_lists_each_id_once (run : CheckpointRun) :
  list_error run = None →
  ∃ ids, retrieve_all_threads run = Return ids ∧
         NoDup ids ∧
         ∀ t, t ∈ ids ↔ t ∈ listed_ids run ∧ t ≠ "".
Proof.
  intros Hok. unfold retrieve_all_threads.
  pose proof (collect_threads_outcome run ∅) as Hrun.
  destruct (collect_threads run ∅) as [s|e]; [|congruence].
  destruct Hrun as [_ Hs]. exists (elements s).
  split; [done|]. split; [apply NoDup_elements|].
  intros t. rewrite elem_of_elements, Hs. split; [|by right].
  intros [Hin|?]; [|done]. by apply not_elem_of_empty in Hin.
Qed.

Lemma retrieve_all_threads_lists_each_id_once_witness :
  ∃ ids, retrieve_all_threads sample_checkpoints = Return ids ∧
         NoDup ids ∧
         ∀ t, t ∈ ids ↔ t ∈ listed_ids sample_checkpoints ∧ t ≠ "".
Proof. apply retrieve_all_threads_lists_each_id_once. reflexivity. Defined.

(** X6. When listing the checkpoints raises, the ids read before are dropped:
    an [OperationalError] gives the empty list, and any other exception is
    raised to the caller. *)
Theorem retrieve_all_threads_on_error (run : CheckpointRun) (e : PyExn) :
  list_error run = Some e →
  retrieve_all_threads run =
    match exn_class e with
    | OperationalError => Return []
    | _ => Raise e
    end.
Proof.
  intros Herr. unfold retrieve_all_threads.
  pose proof (collect_threads_outcome run ∅) as Hrun.
  destruct (collect_threads run ∅) as [s|e'].
  - destruct Hrun as [Hok _]. congruence.
  - rewrite Herr in Hrun. by injection Hrun as ->.
Qed.

Lemma retrieve_all_threads_on_error_witness :
  retrieve_all_threads
    (ListYield "t1" (ListRaise (mkExn OperationalError "no such table: checkpoints")))
    = Return [] ∧
  retrieve_all_threads
    (ListYield "t1" (ListRaise (mkExn (OtherException "ValueError") "bad checkpoint")))
    = Raise (mkExn (OtherException "ValueError") "bad checkpoint").
Proof.
  split.
  - apply (retrieve_all_threads_on_error _
             (mkExn OperationalError "no such table: checkpoints")). reflexivity.
  - apply (retrieve_all_threads_on_error _
             (mkExn (OtherException "ValueError") "bad checkpoint")). reflexivity.
Defined.

#[local] Instance thread_key_ge_trans : Transitive thread_key_ge.
Proof. intros x y z Hxy Hyz. unfold thread_key_ge in *. by etrans. Qed.

#[local] Instance thread_key_ge_total : Total thread_key_ge.
Proof. intros x y. unfold thread_key_ge. apply (total String.le). Qed.

Lemma thread_key_info get_state_values (thread : string) :
  thread_key (thread_info get_state_values thread) = thread.
Proof. reflexivity. Qed.

Lemma thread_keys_infos get_state_values (ids : list string) :
  thread_key <$> (thread_info get_state_values <$> ids) = ids.
Proof.
  induction ids as [|thread ids IH]; [done|].
  rewrite !fmap_cons, IH. by rewrite thread_key_info.
Qed.

Lemma threads_info_loop_entries get_state_values (ids : list string) collected :
  threads_info_loop get_state_values ids collected =
    Return (collected ++ (thread_info get_state_values <$> ids)).
Proof.
  revert collected. induction ids as [|thread ids IH]; intros collected; simpl.
  { by rewrite app_nil_r. }
  unfold thread_info at 1, loaded.
  destruct (load_conversation_total get_state_values thread) as (stored & -> & _).
  simpl. by rewrite IH, <- app_assoc.
Qed.

Lemma get_threads_of_ids get_state_values (run : CheckpointRun) (ids : list string) :
  retrieve_all_threads run = Return ids →
  get_threads get_state_values run =
    Return {[ "threads" :=
      merge_sort thread_key_ge (thread_info get_state_values <$> ids) ]}.
Proof.
  intros Hids. unfold get_threads. rewrite Hids. simpl.
  by rewrite threads_info_loop_entries.
Qed.

(** X7. When listing the checkpoints raises nothing, [get_threads] answers
    with one entry per non-empty thread id of the store, in descending order
    of thread id, each entry named after the conversation loaded for its
    id. *)
Theorem get_threads_sorted_by_id_descending
    (get_state_values : string → Exc (gmap string (list BaseMessage)))
    (run : CheckpointRun) :
  list_error run = None →
  ∃ threads,
    get_threads get_state_values run = Return {[ "threads" := threads ]} ∧
    StronglySorted thread_key_ge threads ∧
    NoDup (thread_key <$> threads) ∧
    (∀ t, t ∈ thread_key <$> threads ↔ t ∈ listed_ids run ∧ t ≠ "") ∧
    Forall (λ x, x !! "thread_id" = Some (thread_key x) ∧
                 x !! "name" =
                   Some (get_thread_name (loaded get_state_values (thread_key x))))
           threads.
Proof.
  intros Hok.
  pose proof (collect_threads_outcome run ∅) as Hrun.
  assert (Hids : ∃ s : gset string, retrieve_all_threads run = Return (elements s) ∧
                      ∀ t, t ∈ s ↔ t ∈ listed_ids run ∧ t ≠ "").
  { unfold retrieve_all_threads.
    destruct (collect_threads run ∅) as [s|e]; [|congruence].
    destruct Hrun as [_ Hs]. exists s. split; [done|].
    intros t. rewrite Hs. split; [|by right].
    intros [Hin|?]; [|done]. by apply not_elem_of_empty in Hin. }
  destruct Hids as (s & Hids & Hs).
  eexists. split; [by apply get_threads_of_ids|].
  split; [apply StronglySorted_merge_sort; apply _|].
  assert (Hkeys : thread_key <$>
            merge_sort thread_key_ge (thread_info get_state_values <$> elements s)
            ≡ₚ elements s).
  { by rewrite merge_sort_Permutation, thread_keys_infos. }
  split; [rewrite Hkeys; apply NoDup_elements|].
  split.
  { intros t. by rewrite Hkeys, elem_of_elements. }
  rewrite merge_sort_Permutation. apply Forall_fmap, Forall_forall.
  intros t _. done.
Qed.

Lemma get_threads_sorted_by_id_descending_witness :
  ∃ threads,
    get_threads sample_get_state sample_checkpoints =
      Return {[ "threads" := threads ]} ∧
    StronglySorted thread_key_ge threads ∧
    NoDup (thread_key <$> threads).
Proof.
  destruct (get_threads_sorted_by_id_descending sample_get_state sample_checkpoints
              eq_refl) as (threads & Hget & Hsorted & Hnodup & _).
  exists threads. split; [exact Hget|]. split; [exact Hsorted|exact Hnodup].
Defined.

Example get_threads_sample :
  get_threads sample_get_state sample_checkpoints =
    Return {[ "threads" :=
      [ {[ "thread_id" := "t2"; "name" := "New Chat" ]};
        {[ "thread_id" := "t1"; "name" := "1 + 2?" ]} ] ]}.
Proof. vm_compute. reflexivity. Qed.

(** X8. When listing the checkpoints raises an [OperationalError],
    [get_threads] answers with an empty thread list; any other exception of
    the listing is raised by [get_threads]. *)
Theorem get_threads_on_error
    (get_state_values : string → Exc (gmap string (list BaseMessage)))
    (run : CheckpointRun) (e : PyExn) :
  list_error run = Some e →
  get_threads get_state_values run =
    match exn_class e with
    | OperationalError => Return {[ "threads" := [] ]}
    | _ => Raise e
    end.
Proof.
  intros Herr. unfold get_threads, retrieve_all_threads.
  pose proof (collect_threads_outcome run ∅) as Hrun.
  destruct (collect_threads run ∅) as [s|e'].
  - destruct Hrun as [Hok _]. congruence.
  - rewrite Herr in Hrun. injection Hrun as <-.
    destruct (exn_class e); done.
Qed.

Lemma get_threads_on_error_witness :
  get_threads sample_get_state
    (ListYield "t1" (ListRaise (mkExn OperationalError "no such table: checkpoints")))
    = Return {[ "threads" := [] ]}.
Proof.
  apply (get_threads_on_error sample_get_state _
           (mkExn OperationalError "no such table: checkpoints")).
  reflexivity.
Defined.

(** ** More properties of thread deletion *)

Lemma delete_thread_cleans_named_tables_witness :
  committed (conn (delete_thread no_faults "t1" sqlite_saver_world).2) !! "checkpoints"
    = Some [mkRow "t2" "checkpoint 2"] ∧
  Forall (λ r, row_thread_id r ≠ "t1") [mkRow "t2" "checkpoint 2"].
Proof.
  split; [reflexivity|].
  apply (delete_thread_cleans_named_tables "t1" "checkpoints" sqlite_saver_world).
  - left.
  - reflexivity.
Defined.

Lemma keep_other_threads_idemp (t_id_str : string) (rows : list Row) :
  keep_other_threads t_id_str (keep_other_threads t_id_str rows) =
    keep_other_threads t_id_str rows.
Proof. apply keep_other_threads_id, keep_other_threads_clean. Qed.

Lemma execute_delete_other_threads (F : Faults) (t_id_str table table' : string) (c : Conn) :
  keep_other_threads t_id_str <$> (working (execute_delete F table t_id_str c).2 !! table') =
    keep_other_threads t_id_str <$> (working c !! table').
Proof.
  unfold execute_delete.
  destruct (execute_fault F table) as [e|]; [done|].
  destruct (working c !! table) as [rows|] eqn:Hrows; [|done]. simpl.
  destruct (decide (table = table')) as [<-|Hne].
  - rewrite lookup_insert_eq, Hrows. simpl. by rewrite keep_other_threads_idemp.
  - by rewrite lookup_insert_ne.
Qed.

Lemma delete_from_other_threads (F : Faults) (t_id_str table' : string)
    (tbls : list string) (c : Conn) :
  keep_other_threads t_id_str <$> (working (delete_from F t_id_str tbls c).2 !! table') =
    keep_other_threads t_id_str <$> (working c !! table').
Proof.
  revert c. induction tbls as [|table rest IH]; intros c; simpl; [done|].
  pose proof (execute_delete_other_threads F t_id_str table table' c) as Hstep.
  destruct (execute_delete F table t_id_str c) as [[[]|e] c']; simpl in Hstep.
  - by rewrite IH.
  - destruct (is_missing_table e); [by rewrite IH|done].
Qed.


(** X10. Whatever the faults, [delete_thread] creates and drops no table, and
    in every table the rows of the other threads stay as they were, in their
    order. *)
Theorem delete_thread_keeps_other_threads
    (F : Faults) (thread table : string) (w : World) :
  keep_other_threads thread <$> (working (conn (delete_thread F thread w).2) !! table) =
    keep_other_threads thread <$> (working (conn w) !! table).
Proof.
  unfold delete_thread, delete_thread_try.
  destruct (cursor_fault F) as [e|]; [done|].
  pose proof (delete_from_other_threads F thread table tables (conn w)) as Hloop.
  destruct (delete_from F thread tables (conn w)) as [[[]|e] c]; [|done].
  unfold commit. by destruct (commit_fault F).
Qed.


Example delete_thread_failure_leaves_pending_deletion :
  let after := (delete_thread
                  (mkFaults None (λ _, None) (Some database_is_locked))
                  "t1" sqlite_saver_world).2 in
  committed (conn after) = sqlite_saver_db ∧
  working (conn after) !! "checkpoints" = Some [mkRow "t2" "checkpoint 2"].
Proof. split; reflexivity. Qed.

Lemma delete_from_clean_tables (F : Faults) (t_id_str : string) (tbls : list string) (c : Conn) :
  (∀ table rows, table ∈ tbls → working c !! table = Some rows →
                 Forall (λ r, row_thread_id r ≠ t_id_str) rows) →
  (delete_from F t_id_str tbls c).2 = c.
Proof.
  induction tbls as [|table rest IH]; intros Hclean; simpl; [done|].
  assert (Hrest : (delete_from F t_id_str rest c).2 = c).
  { apply IH. intros table' rows Hin. apply Hclean. by right. }
  unfold execute_delete.
  destruct (execute_fault F table) as [e|].
  - by destruct (is_missing_table e).
  - destruct (working c !! table) as [rows|] eqn:Hrows.
    + rewrite keep_other_threads_id by (eapply Hclean; [left|done]).
      rewrite insert_id by exact Hrows. by destruct c.
    + by rewrite is_missing_table_no_such_table.
Qed.

Lemma delete_thread_no_faults_conn (thread : string) (w : World) :
  conn (delete_thread no_faults thread w).2 =
    mkConn (working (delete_from no_faults thread tables (conn w)).2)
           (working (delete_from no_faults thread tables (conn w)).2).
Proof.
  unfold delete_thread, delete_thread_try.
  change (cursor_fault no_faults) with (@None PyExn). cbv iota.
  pose proof (delete_from_outcome no_faults thread tables (conn w)) as Hout.
  destruct (delete_from no_faults thread tables (conn w)) as [out c].
  cbn [fst snd] in *. change (first_fault_in no_faults tables) with (@None PyExn) in Hout.
  by subst out.
Qed.

(** X12. On a storage layer without faults, deleting a thread a second time
    succeeds again and leaves the connection as the first deletion left
    it. *)
Theorem delete_thread_twice (thread : string) (w : World) :
  (delete_thread no_faults thread (delete_thread no_faults thread w).2).1 = Return true ∧
  conn (delete_thread no_faults thread (delete_thread no_faults thread w).2).2 =
    conn (delete_thread no_faults thread w).2.
Proof.
  split; [apply delete_thread_outcome|].
  set (w1 := (delete_thread no_faults thread w).2).
  assert (Hclean : ∀ table rows, table ∈ tables →
            working (conn w1) !! table = Some rows →
            Forall (λ r, row_thread_id r ≠ thread) rows).
  { intros table rows Hin. subst w1. rewrite delete_thread_no_faults_conn.
    by apply delete_from_cleans. }
  assert (Hsame : committed (conn w1) = working (conn w1)).
  { subst w1. by rewrite delete_thread_no_faults_conn. }
  rewrite (delete_thread_no_faults_conn thread w1).
  rewrite (delete_from_clean_tables no_faults thread tables (conn w1) Hclean).
  destruct (conn w1) as [cm wk]. simpl in *. by subst.
Qed.

(** ** More properties of the chat endpoint *)

Lemma stream_loop_raises (thread : string) (run : StreamRun) (acc : string) (e : PyExn) :
  stream_error run = Some e → (stream_loop thread run acc).2 = Raise e.
Proof.
  revert acc. induction run as [|m rest IH|e']; intros acc Herr; simpl in *.
  - discriminate.
  - destruct (isinstance_AIMessage m && py_truthy (content m)); [|by apply IH].
    specialize (IH (acc +:+ content m) Herr).
    by destruct (stream_loop thread rest (acc +:+ content m)).
  - by injection Herr as ->.
Qed.

(** X13. When the graph run raises, the chunk events of the assistant text
    streamed before the exception are still sent, and the last event is an
    error event whose content is the message of the exception. *)
Theorem generate_response_on_exception (thread : string) (run : StreamRun) (e : PyExn) :
  stream_error run = Some e →
  generate_response thread run =
    ((λ m, event "chunk" (content m) thread) <$>
       filter (λ m, assistant_text m = true) (stream_items run))
    ++ [event "error" (py_str_exn e) thread].
Proof.
  intros Herr. unfold generate_response.
  pose proof (stream_loop_chunks thread run "") as Hchunks.
  pose proof (stream_loop_raises thread run "" e Herr) as Hout.
  destruct (stream_loop thread run "") as [chunks out]. simpl in *.
  by subst.
Qed.

Lemma generate_response_on_exception_witness :
  generate_response "t1"
    (StreamYield (AIMessageChunk "It " [])
       (StreamRaise (mkExn (OtherException "APIError") "rate limit"))) =
    [event "chunk" "It " "t1"; event "error" "rate limit" "t1"].
Proof.
  exact (generate_response_on_exception "t1"
           (StreamYield (AIMessageChunk "It " [])
              (StreamRaise (mkExn (OtherException "APIError") "rate limit")))
           (mkExn (OtherException "APIError") "rate limit") eq_refl).
Defined.

(** X14. A thread id that the request supplies and that is not empty is used
    as it is, whatever entropy is at hand: the graph is run under it and every
    event carries it. *)
Theorem supplied_thread_id_is_kept (chatbot_stream : string → string → StreamRun)
    (rand : N) (request : ChatRequest) (t : string) :
  thread_id request = Some t → t ≠ "" →
  chat_endpoint chatbot_stream rand request =
    mkChatTurn t (generate_response t (chatbot_stream t (message request))) ∧
  Forall (λ ev, ev !! "thread_id" = Some t)
         (turn_events (chat_endpoint chatbot_stream rand request)).
Proof.
  intros Ht Hne.
  assert (Hturn : chat_endpoint chatbot_stream rand request =
    mkChatTurn t (generate_response t (chatbot_stream t (message request)))).
  { unfold chat_endpoint. rewrite Ht. destruct t; [done|reflexivity]. }
  split; [exact Hturn|]. rewrite Hturn. apply generate_response_thread_id.
Qed.

Lemma supplied_thread_id_is_kept_witness :
  turn_thread_id
    (chat_endpoint (λ _ _, sample_run) 7 (mkChatRequest "1 + 2?" (Some "t1"))) = "t1".
Proof.
  destruct (supplied_thread_id_is_kept (λ _ _, sample_run) 7
              (mkChatRequest "1 + 2?" (Some "t1")) "t1" eq_refl) as [Hturn _].
  { discriminate. }
  exact (f_equal turn_thread_id Hturn).
Defined.

(** X15. The id [create_thread] hands out has 36 characters, and a chat
    request that carries it runs under that very id. *)
Theorem created_thread_id_is_kept (chatbot_stream : string → string → StreamRun)
    (rand rand' : N) (text : string) :
  ∃ id, create_thread rand !! "thread_id" = Some id ∧
        String.length id = 36 ∧
        turn_thread_id
          (chat_endpoint chatbot_stream rand' (mkChatRequest text (Some id))) = id.
Proof.
  exists (uuid_str (uuid4 rand)). split; [reflexivity|].
  split; [apply uuid_str_length|].
  apply chat_endpoint_given_thread_id; [done|apply uuid_str_nonempty].
Qed.

(** X16. The history endpoint never raises: when the state of the thread
    cannot be read, or holds no messages, it answers with an empty list. *)
Theorem get_thread_messages_without_history
    (get_state_values : string → Exc (gmap string (list BaseMessage)))
    (thread : string) :
  (∃ body, get_thread_messages get_state_values thread = Return body) ∧
  (∀ e, get_state_values thread = Raise e →
     get_thread_messages get_state_values thread = Return {[ "messages" := [] ]}) ∧
  (∀ values, get_state_values thread = Return values → values !! "messages" = None →
     get_thread_messages get_state_values thread = Return {[ "messages" := [] ]}).
Proof.
  unfold get_thread_messages, load_conversation.
  destruct (get_state_values thread) as [values|e]; simpl.
  - split; [eauto|]. split; [discriminate|].
    intros ? [= <-]%Return_inj Hnone. by rewrite Hnone.
  - split; [eauto|]. split; [done|discriminate].
Qed.

Lemma get_thread_messages_without_history_witness :
  get_thread_messages sample_get_state "t3" = Return {[ "messages" := [] ]} ∧
  get_thread_messages sample_get_state "t2" = Return {[ "messages" := [] ]}.
Proof.
  split.
  - apply (proj1 (proj2 (get_thread_messages_without_history sample_get_state "t3"))
             (mkExn OperationalError "no such table: checkpoints")).
    reflexivity.
  - apply (proj2 (proj2 (get_thread_messages_without_history sample_get_state "t2")) ∅);
      reflexivity.
Defined.

(** ** The client against the server *)

(** X17. The client's [get_thread_name], run on the history the server
    displays, gives the name the server's [get_thread_name] gives the stored
    conversation. *)
Theorem client_and_server_name_threads_alike (stored : list BaseMessage) :
  Frontend.get_thread_name (display_view stored) = Return (get_thread_name stored).
Proof.
  induction stored as [|msg stored IH]; [done|].
  rewrite display_view_cons.
  destruct msg as [c|c calls|c calls|c call|c]; simpl; try exact IH.
  - reflexivity.
  - destruct (negb (String.eqb c "")); [|exact IH]. exact IH.
  - destruct (negb (String.eqb c "")); [|exact IH]. exact IH.
Qed.

(** X18. What the client loads for a thread is the display view of the
    conversation the server loaded; a request that fails gives the empty
    list. *)
Theorem client_loads_display_view
    (get_state_values : string → Exc (gmap string (list BaseMessage)))
    (thread : string) :
  Frontend.load_conversation_from_api
    (Return (serve (get_thread_messages get_state_values thread))) =
    display_view (loaded get_state_values thread) ∧
  ∀ e, Frontend.load_conversation_from_api (Raise e) = [].
Proof.
  split; [|done].
  unfold get_thread_messages, loaded.
  destruct (load_conversation_total get_state_values thread) as (stored & -> & _).
  simpl. rewrite format_messages_view. reflexivity.
Qed.

(** X19. The client takes a deletion for done whenever the server answers,
    also when the body of the answer says the deletion failed: the endpoint
    answers with status 200 and the success flag of [delete_thread], and the
    client reads the status only. *)
Theorem client_ignores_failed_deletion (F : Faults) (thread : string) (w : World) :
  (delete_thread_endpoint F thread w).1 =
    Return {[ "success" := deletion_succeeds F ]} ∧
  Frontend.delete_thread_from_api
    (Return (serve (delete_thread_endpoint F thread w).1)) = true.
Proof.
  unfold delete_thread_endpoint.
  pose proof (delete_thread_outcome F thread w) as [Hret _].
  destruct (delete_thread F thread w) as [out w']. simpl in *. subst out.
  split; reflexivity.
Qed.

Example client_reports_locked_database_as_deleted :
  (delete_thread_endpoint locked "t1" sqlite_saver_world).1 =
    Return {[ "success" := false ]} ∧
  Frontend.delete_thread_from_api
    (Return (serve (delete_thread_endpoint locked "t1" sqlite_saver_world).1)) = true.
Proof. split; reflexivity. Qed.

Lemma stream_loop_returns (thread : string) (run : StreamRun) (acc : string) :
  stream_error run = None → ∃ full, (stream_loop thread run acc).2 = Return full.
Proof.
  revert acc. induction run as [|m rest IH|e]; intros acc Hok; simpl in *.
  - eauto.
  - destruct (isinstance_AIMessage m && py_truthy (content m)); [|by apply IH].
    destruct (IH (acc +:+ content m) Hok) as [full Hfull].
    destruct (stream_loop thread rest (acc +:+ content m)). simpl in *. eauto.
  - discriminate.
Qed.

Lemma data_line_accepted (payload : string) :
  py_truthy ("data: " +:+ payload) && String.prefix "data: " ("data: " +:+ payload) = true.
Proof. destruct payload; reflexivity. Qed.

Lemma data_line_payload (payload : string) :
  Frontend.drop_chars 6 ("data: " +:+ payload) = payload.
Proof. reflexivity. Qed.

Section client_reads_stream.
Variable json_dumps : gmap string string → string.
Variable json_loads : string → option (gmap string string).

Lemma read_stream_event (ev : gmap string string) (later : list string) (acc : string) :
  json_loads (json_dumps ev) = Some ev →
  Frontend.read_stream json_loads (sse_lines json_dumps [ev] ++ later) acc =
    if bool_decide (ev !! "type" = Some "chunk") then
      Frontend.read_stream json_loads later (acc +:+ default "" (ev !! "content"))
    else if bool_decide (ev !! "type" = Some "complete") then
      default "" (ev !! "content")
    else if bool_decide (ev !! "type" = Some "error") then
      "Error: " +:+ default "Unknown error" (ev !! "content")
    else Frontend.read_stream json_loads later acc.
Proof.
  intros Hcodec.
  change (sse_lines json_dumps [ev] ++ later)
    with (("data: " +:+ json_dumps ev) :: "" :: later).
  cbn [Frontend.read_stream].
  rewrite data_line_accepted, data_line_payload, Hcodec.
  repeat (case_bool_decide; [reflexivity|]). reflexivity.
Qed.

Lemma read_stream_chunks (chunks : list (gmap string string)) (later : list string)
    (acc : string) :
  Forall (λ ev, json_loads (json_dumps ev) = Some ev) chunks →
  Forall (λ ev, is_chunk ev = true) chunks →
  Frontend.read_stream json_loads (sse_lines json_dumps chunks ++ later) acc =
    Frontend.read_stream json_loads later (acc +:+ chunk_text chunks).
Proof.
  intros Hcodec Hchunks. revert acc.
  induction Hcodec as [|ev chunks Hev _ IH]; intros acc.
  { simpl. by rewrite string_app_nil_r. }
  apply Forall_cons in Hchunks as [Hchunk Hchunks].
  change (sse_lines json_dumps (ev :: chunks) ++ later)
    with (sse_lines json_dumps [ev] ++ (sse_lines json_dumps chunks ++ later)).
  rewrite read_stream_event by done.
  unfold is_chunk in Hchunk. rewrite Hchunk.
  rewrite IH by done. f_equal.
  unfold chunk_text. rewrite filter_cons_True by (unfold is_chunk; by rewrite Hchunk).
  simpl. by rewrite string_app_assoc.
Qed.

(** X20. When the JSON codec gives back the events it is given, the text the
    client ends up showing for a chat turn is the concatenation of the
    streamed chunks if the graph run ended, and "Error: " followed by the
    message of the exception if it raised. *)
Theorem client_shows_streamed_text (thread : string) (run : StreamRun) :
  Forall (λ ev, json_loads (json_dumps ev) = Some ev) (generate_response thread run) →
  Frontend.read_stream json_loads
    (sse_lines json_dumps (generate_response thread run)) "" =
    match stream_error run with
    | None => chunk_text (generate_response thread run)
    | Some e => "Error: " +:+ py_str_exn e
    end.
Proof.
  destruct (generate_response_shape thread run)
    as (chunks & terminal & Hshape & Hall & Hterm).
  apply shape_chunks_are_chunks in Hall.
  assert (Hterminal : terminal =
    match stream_error run with
    | None => event "complete" (chunk_text chunks) thread
    | Some e => event "error" (py_str_exn e) thread
    end).
  { revert Hshape. unfold generate_response.
    pose proof (stream_loop_raises thread run "") as Hraises.
    pose proof (stream_loop_returns thread run "") as Hreturns.
    destruct (stream_loop thread run "") as [chunks' out]. simpl in *.
    destruct (stream_error run) as [e|].
    - rewrite (Hraises e eq_refl). intros [_ Heq]%app_inj_tail. done.
    - destruct (Hreturns eq_refl) as [full ->]. intros [_ <-]%app_inj_tail.
      destruct Hterm as [[_ Hc]|[_ [e He]]]; [done|].
      apply (f_equal (λ ev, ev !! "type")) in He.
      rewrite !event_type in He. discriminate. }
  rewrite Hshape. intros [Hcodec Hlast]%Forall_app.
  apply Forall_cons in Hlast as [Hlast _].
  assert (Hlines : sse_lines json_dumps (chunks ++ [terminal]) =
            sse_lines json_dumps chunks ++ (sse_lines json_dumps [terminal] ++ [])).
  { unfold sse_lines. by rewrite bind_app, app_nil_r. }
  rewrite Hlines, read_stream_chunks;
    [|done|eapply Forall_impl; [exact Hall|]; by intros ? [? _]].
  rewrite read_stream_event by done.
  assert (Hnc : is_chunk terminal = false).
  { rewrite Hterminal. destruct (stream_error run); by rewrite is_chunk_event. }
  rewrite chunk_text_app_terminal by done.
  rewrite Hterminal. destruct (stream_error run) as [e|];
    rewrite !event_type, !event_content; reflexivity.
Qed.
End client_reads_stream.

Lemma client_shows_streamed_text_witness :
  Frontend.read_stream sample_loads
    (sse_lines sample_dumps (generate_response "t1" sample_run)) "" = "It is 3.".
Proof.
  apply (client_shows_streamed_text sample_dumps sample_loads "t1" sample_run).
  repeat constructor.
Defined.

(** ** More properties of the calculator and of the missing-table test *)

Lemma float_op_none (op : string) :
  float_op op = None → op ≠ "add" ∧ op ≠ "sub" ∧ op ≠ "mul" ∧ op ≠ "div".
Proof.
  unfold float_op.
  destruct (String.eqb op "add") eqn:Ha; [discriminate|].
  destruct (String.eqb op "sub") eqn:Hs; [discriminate|].
  destruct (String.eqb op "mul") eqn:Hm; [discriminate|].
  destruct (String.eqb op "div") eqn:Hd; [discriminate|].
  intros _. by rewrite <- !String.eqb_neq.
Qed.

Lemma result_is_not_error (x y : PyVal float) :
  ({[ "result" := x ]} : gmap string (PyVal float)) ≠ {[ "error" := y ]}.
Proof.
  intros Heq. apply (f_equal (λ m, m !! "error")) in Heq.
  rewrite lookup_singleton_eq, lookup_singleton_ne in Heq; done.
Qed.

(** X21. On floats the tool answers with an error dict in two cases only: the
    operation name is not one of add, sub, mul, div, or it is div and the
    divisor compares equal to zero.  In every other case it answers with a
    result. *)
Theorem calculator_float_error_cases (a b : float) (op : string) :
  (∃ msg, calculator a b op = Return {[ "error" := PyStr msg ]}) ↔
  (float_op op = None ∨ (op = "div" ∧ (b =? 0)%float = true)).
Proof.
  split.
  - intros [msg Herr].
    destruct (float_op op) as [f|] eqn:Hf; [|by left]. right.
    destruct (decide (op = "div")) as [->|Hne].
    + split; [done|]. destruct (b =? 0)%float eqn:Hz; [done|].
      rewrite (calculator_float_result a b "div" f Hf) in Herr by done.
      apply Return_inj in Herr. by apply result_is_not_error in Herr.
    + rewrite (calculator_float_result a b op f Hf) in Herr by done.
      apply Return_inj in Herr. by apply result_is_not_error in Herr.
  - intros [Hnone|[-> Hz]].
    + apply float_op_none in Hnone as (Ha & Hs & Hm & Hd).
      eexists. by apply calculator_unsupported.
    + eexists. by apply calculator_float_div_zero.
Qed.

Lemma prefix_app (needle rest : string) : String.prefix needle (needle +:+ rest) = true.
Proof.
  induction needle as [|a needle IH]; [by destruct rest|].
  rewrite string_app_cons. simpl. by destruct (ascii_dec a a).
Qed.

Lemma prefix_split (needle hay : string) :
  String.prefix needle hay = true → ∃ rest, hay = needle +:+ rest.
Proof.
  revert hay. induction needle as [|a needle IH]; intros hay Hp.
  - by exists hay.
  - destruct hay as [|b hay]; [done|]. simpl in Hp.
    destruct (ascii_dec a b) as [->|]; [|done].
    destruct (IH _ Hp) as [rest ->]. by exists rest.
Qed.

(** [in] on strings holds exactly of the strings that contain the needle. *)
Lemma py_str_in_contains (needle hay : string) :
  py_str_in needle hay = true ↔ ∃ before after, hay = before +:+ needle +:+ after.
Proof.
  split.
  - induction hay as [|b hay IH]; cbn [py_str_in].
    + rewrite orb_false_r. intros [rest Heq]%prefix_split. by exists "", rest.
    + intros [Hp|Hin]%orb_true_iff.
      * apply prefix_split in Hp as [rest ->]. by exists "", rest.
      * destruct (IH Hin) as (before & after & ->). by exists (String b before), after.
  - intros (before & after & ->). induction before as [|b before IH].
    + change ("" +:+ needle +:+ after) with (needle +:+ after).
      pose proof (prefix_app needle after) as Hp.
      destruct (needle +:+ after); cbn [py_str_in]; by rewrite Hp.
    + rewrite string_app_cons. cbn [py_str_in]. rewrite IH. apply orb_true_r.
Qed.

(** X22. The inner handler of [delete_thread] passes over an exception exactly
    when it is an [OperationalError] whose message contains "no such table"
    somewhere; an exception of another class is never passed over, whatever
    its message. *)
Theorem missing_table_test (e : PyExn) :
  is_missing_table e = true ↔
  exn_class e = OperationalError ∧
  ∃ before after, exn_msg e = before +:+ "no such table" +:+ after.
Proof.
  unfold is_missing_table, py_str_exn. rewrite <- py_str_in_contains.
  destruct (exn_class e); split; try done; intros [? ?]; done.
Qed.

Example other_class_not_passed_over :
  (delete_thread
     (mkFaults None (λ _, Some (mkExn (OtherException "ProgrammingError")
                                       "no such table: checkpoints")) None)
     "t1" sqlite_saver_world).1 = Return false.
Proof. reflexivity. Qed.
